(** * ip-api: timezone resolution

    A shallow embedding of [src/utils.js] ([getFlag], [getTimezone],
    [getTimezoneOffsetMinutes], [getTimezoneOffset]), of
    [src/geoip-services.js] ([fetchFromService], [raceWithTimeout],
    [getTimezoneByConsensus], [getTimezoneFirst]) and of the [/timezone]
    route of [src/index.js], followed by the properties of the
    multi-provider resolver and of the functions around it.

    Conventions of the embedding.
    - A JavaScript value that is "a string or undefined/null" is an
      [option string]; [truthy] is the test made by [if (x)].
    - Time is a natural number of ticks counted from the start of the
      call; the scenarios take a tick of 10 ms, so that the default total
      timeout is 800 and the default timeout of a service 500.  The
      route of [src/index.js] passes the defaults as the source writes
      them; no property depends on the unit.  A promise is the pair of
      the instant at which it settles and the way it settles.
    - In [Promise.race([promise, timeoutPromise])] the promise is listed
      first: a promise that settles in the very instant of the total
      timeout, or has settled before it is awaited, wins the race.
    - The tables of [./timezone-data] are object literals read with
      [table[key]]: a key finds the table's own entry, a string, or else
      what every object inherits from [Object.prototype] ([JsValue]).
    - An async generator is the finite sequence of its yields, each with
      the instant of delivery, closed by the instant at which it
      completes ([Gen]).
    - [confidence] is the exact quotient of two small integers and is kept
      as a rational number. *)

From Stdlib Require Import String Ascii List ZArith QArith Lia Arith Bool DecimalString Sorted.
From stdpp Require Import gmap strings list.
Import ListNotations.

Local Open Scope string_scope.
Local Open Scope list_scope.
Local Open Scope nat_scope.

(** [if (x)] on a value that is a string, undefined or null. *)
Definition truthy (v : option string) : bool :=
  match v with
  | Some s => negb (String.eqb s "")
  | None => false
  end.

(* ===================================================================== *)
(** ** src/utils.js *)
(* ===================================================================== *)

Module Utils.

(** The argument of [getTimezone]. *)
Record GeoQuery := {
  city : option string;
  country : option string;
  countryRegion : option string;
  cfTimezone : option string
}.

(** A value that [getTimezone] can meet and return.  The tables hold
    strings, but [table[key]] also finds what the table object inherits,
    and that is an object or a function of the environment. *)
Inductive JsValue :=
| JsUndefined
| JsString (s : string)
| JsNumber (n : Z)
| JsObject (name : string).

(** [if (v)]. *)
Definition truthyValue (v : JsValue) : bool :=
  match v with
  | JsUndefined => false
  | JsString s => negb (String.eqb s "")
  | JsNumber n => negb (n =? 0)%Z
  | JsObject _ => true
  end.

(** The properties of [Object.prototype], by name. *)
Definition OBJECT_PROTOTYPE : list string :=
  [ "constructor"; "hasOwnProperty"; "isPrototypeOf"; "propertyIsEnumerable";
    "toLocaleString"; "toString"; "valueOf"; "__proto__";
    "__defineGetter__"; "__defineSetter__"; "__lookupGetter__"; "__lookupSetter__" ].

(** What an object literal inherits under [key]: the function [Object]
    for ["constructor"], [Object.prototype] for ["__proto__"], a method
    of [Object.prototype] for its other names, nothing else. *)
Definition inherited (key : string) : JsValue :=
  if String.eqb key "constructor" then JsObject "Object"
  else if String.eqb key "__proto__" then JsObject "Object.prototype"
  else if existsb (String.eqb key) OBJECT_PROTOTYPE
       then JsObject (String.append "Object.prototype." key)
       else JsUndefined.

(** [table[key]] on a table written as an object literal: its own entry,
    or else what it inherits. *)
Definition prop (table : gmap string string) (key : string) : JsValue :=
  match table !! key with
  | Some v => JsString v
  | None => inherited key
  end.

Section Tables.
(** The three tables of [./timezone-data], object literals which the
    function only reads: their own entries are timezone identifiers, and
    for the third, tables of such.  [member object key] is [object[key]]
    for an object or function of the environment. *)
Variables CITY_TIMEZONE COUNTRY_TIMEZONE : gmap string string.
Variable COUNTRY_REGION_TIMEZONE : gmap string (gmap string string).
Variable member : string -> string -> JsValue.

(** [regionMap[region]] where [regionMap] is
    [COUNTRY_REGION_TIMEZONE[country]], and undefined when [regionMap] is
    ([regionMap && regionMap[region]] is then [regionMap]). *)
Definition regionValue (country region : string) : JsValue :=
  match COUNTRY_REGION_TIMEZONE !! country with
  | Some regionMap => prop regionMap region
  | None =>
      match inherited country with
      | JsObject object => member object region
      | _ => JsUndefined
      end
  end.

(** Step 2: the value returned inside
    [if (geo.country && geo.countryRegion) { ... }], if any. *)
Definition regionTimezone (geo : GeoQuery) : option JsValue :=
  match country geo, countryRegion geo with
  | Some c, Some r =>
      if truthy (Some c) && truthy (Some r) && truthyValue (regionValue c r)
      then Some (regionValue c r)
      else None
  | _, _ => None
  end.

(** Step 3: [if (geo.city && CITY_TIMEZONE[geo.city])]. *)
Definition cityTimezone (geo : GeoQuery) : option JsValue :=
  match city geo with
  | Some c =>
      if truthy (Some c) && truthyValue (prop CITY_TIMEZONE c)
      then Some (prop CITY_TIMEZONE c)
      else None
  | None => None
  end.

(** Step 4: [if (geo.country && COUNTRY_TIMEZONE[geo.country])]. *)
Definition countryTimezone (geo : GeoQuery) : option JsValue :=
  match country geo with
  | Some c =>
      if truthy (Some c) && truthyValue (prop COUNTRY_TIMEZONE c)
      then Some (prop COUNTRY_TIMEZONE c)
      else None
  | None => None
  end.

(** Steps 2 to 5 of [getTimezone(geo)]. *)
Definition fromTables (geo : GeoQuery) : JsValue :=
  match regionTimezone geo with
  | Some v => v
  | None =>
  match cityTimezone geo with
  | Some v => v
  | None =>
  match countryTimezone geo with
  | Some v => v
  | None => JsString "UTC"
  end end end.

(** [getTimezone(geo)]. *)
Definition getTimezone (geo : GeoQuery) : JsValue :=
  match cfTimezone geo with
  | Some tz => if truthy (Some tz) then JsString tz else fromTables geo
  | None => fromTables geo
  end.
End Tables.

(** *** getFlag *)

(** A string given to [String.fromCodePoint], or returned by it, is the
    list of its code points. *)
Definition EMOJI_FLAG_UNICODE_STARTING_POSITION : N := 127397.

(** [String(countryCode)], as [RegExp.prototype.test] reads its argument. *)
Definition toStringJs (v : option string) : string :=
  match v with
  | Some s => s
  | None => "undefined"
  end.

Definition isUpper (c : ascii) : bool :=
  ((65 <=? N_of_ascii c) && (N_of_ascii c <=? 90))%N.

(** [new RegExp('^[A-Z]{2}$').test(s)]. *)
Definition twoUpperCase (s : string) : bool :=
  match s with
  | String a (String b EmptyString) => isUpper a && isUpper b
  | _ => false
  end.

(** [String.fromCodePoint(...codePoints)]; [None] is the [RangeError] for
    a number that is no code point. *)
Definition fromCodePoint (codePoints : list N) : option (list N) :=
  if forallb (fun cp => (cp <=? 1114111)%N) codePoints then Some codePoints else None.

(** [getFlag(countryCode)]; [None] is [undefined]. *)
Definition getFlag (countryCode : option string) : option (list N) :=
  let regex := twoUpperCase (toStringJs countryCode) in
  if negb (truthy countryCode) || negb regex then None
  else
    match countryCode with
    | Some code =>
        fromCodePoint
          (map (fun char => (EMOJI_FLAG_UNICODE_STARTING_POSITION + N_of_ascii char)%N)
               (list_ascii_of_string code))
    | None => None
    end.

(** *** getTimezoneOffsetMinutes, getTimezoneOffset *)

(** What [Intl] and [Date] answer for a timezone: a [RangeError] for an
    identifier they do not know, or else the text of the part of type
    [timeZoneName] of the formatted date (if there is one) and the number
    of minutes the fallback computation arrives at. *)
Inductive IntlAnswer :=
| IntlThrows
| IntlParts (timeZoneName : option string) (fallbackMinutes : Z).

Definition isDigit (c : ascii) : bool :=
  ((48 <=? N_of_ascii c) && (N_of_ascii c <=? 57))%N.

Definition isSign (c : ascii) : bool :=
  Ascii.eqb c "+" || Ascii.eqb c "-".

(** The groups of a match of [/([+-])(\d{1,2})(?::(\d{2}))?/]. *)
Record OffsetMatch := {
  signText : ascii;
  hoursText : string;
  minutesText : option string
}.

(** The match that starts at the head of [s]: a sign, two digits if there
    are two and else one, then [:dd] if it is there. *)
Definition matchAtHead (s : string) : option OffsetMatch :=
  match s with
  | String c (String d1 rest) =>
      if isSign c && isDigit d1 then
        let '(hours, rest') :=
          match rest with
          | String d2 rest2 =>
              if isDigit d2 then (String d1 (String d2 ""), rest2)
              else (String d1 "", rest)
          | EmptyString => (String d1 "", rest)
          end in
        let minutes :=
          match rest' with
          | String colon (String m1 (String m2 _)) =>
              if Ascii.eqb colon ":" && isDigit m1 && isDigit m2
              then Some (String m1 (String m2 ""))
              else None
          | _ => None
          end in
        Some {| signText := c; hoursText := hours; minutesText := minutes |}
      else None
  | _ => None
  end.

(** [offset.match(...)]: the leftmost match. *)
Fixpoint matchOffset (s : string) : option OffsetMatch :=
  match matchAtHead s with
  | Some m => Some m
  | None =>
      match s with
      | String _ s' => matchOffset s'
      | EmptyString => None
      end
  end.

(** [parseInt(digits, 10)] on a string of decimal digits. *)
Definition parseInt (digits : string) : Z :=
  fold_left (fun acc c => (acc * 10 + (Z.of_N (N_of_ascii c) - 48))%Z)
            (list_ascii_of_string digits) 0%Z.

(** [value.replace('GMT', '')]: the first occurrence goes. *)
Fixpoint removeFirst (pattern s : string) : string :=
  if String.prefix pattern s
  then substring (String.length pattern) (String.length s - String.length pattern) s
  else
    match s with
    | String c s' => String c (removeFirst pattern s')
    | EmptyString => EmptyString
    end.

(** [getTimezoneOffsetMinutes(timezone)], [intl] being what [Intl] and
    [Date] answer for [timezone]. *)
Definition getTimezoneOffsetMinutes (intl : IntlAnswer) : Z :=
  match intl with
  | IntlThrows => 0%Z
  | IntlParts offsetPart fallbackMinutes =>
      match offsetPart with
      | Some value =>
          if String.prefix "GMT" value then
            let offset := removeFirst "GMT" value in
            if String.eqb offset "" then 0%Z
            else
              match matchOffset offset with
              | Some m =>
                  let sign := if Ascii.eqb (signText m) "+" then 1%Z else (-1)%Z in
                  let hours := parseInt (hoursText m) in
                  let minutes := parseInt (default "0" (minutesText m)) in
                  (sign * (hours * 60 + minutes))%Z
              | None => fallbackMinutes
              end
          else fallbackMinutes
      | None => fallbackMinutes
      end
  end.

(** [n.toString()] for a natural number. *)
Definition toString (n : Z) : string :=
  NilZero.string_of_uint (N.to_uint (Z.to_N n)).

(** [s.padStart(2, '0')]. *)
Definition padStart2 (s : string) : string :=
  match String.length s with
  | 0 => "00"
  | 1 => "0" ++ s
  | _ => s
  end.

(** [getTimezoneOffset(timezone)]. *)
Definition getTimezoneOffset (intl : IntlAnswer) : string :=
  let offsetMinutes := getTimezoneOffsetMinutes intl in
  let sign := if (0 <=? offsetMinutes)%Z then "+" else "-" in
  let absOffset := Z.abs offsetMinutes in
  let hours := padStart2 (toString (absOffset / 60)) in
  let minutes := padStart2 (toString (absOffset mod 60)) in
  sign ++ hours ++ ":" ++ minutes.

End Utils.

(* ===================================================================== *)
(** ** src/geoip-services.js *)
(* ===================================================================== *)

Module GeoIP.

(** What [parseGeo] builds. *)
Record Geo := {
  country : option string;
  countryRegion : option string;
  city : option string;
  latitude : option string;
  longitude : option string
}.

(** [{ timezone, geo, service: service.name }]. *)
Record ServiceResult := {
  timezone : string;
  geo : Geo;
  service : string
}.

(** The names of [GEOIP_SERVICES], in registration order. *)
Definition GEOIP_SERVICES : list string :=
  ["ipapi.co"; "ipwho.is"; "ip-api.com"; "reallyfreegeoip.org"; "freeipapi.com"].

(** *** Promises *)

Inductive Settled :=
| Fulfilled (value : option ServiceResult)
| Rejected (message : string).

Record Promise := {
  settleTime : nat;
  settled : Settled
}.

(** How a function call ends. [Pending]: the awaited promise never
    settles. *)
Inductive Completion (A : Type) :=
| Returns (value : A)
| Throws (message : string)
| Pending.
Arguments Returns {A} value.
Arguments Throws {A} message.
Arguments Pending {A}.

(** *** fetchFromService *)

(** What the network does for one request, were it never aborted. *)
Inductive Exchange :=
| FetchError (message : string)
| HttpNotOk (status : nat)
| JsonError (message : string)
| Parsed (tz : option string) (g : Geo).

Record Fetch := {
  latency : nat;
  exchange : Exchange
}.

(** The body of the [try]: the value returned, or [None] after [catch]. *)
Definition fetchBody (name : string) (e : Exchange) : option ServiceResult :=
  match e with
  | Parsed tz g =>
      match tz with
      | Some t => if truthy tz
                  then Some {| timezone := t; geo := g; service := name |}
                  else None
      | None => None
      end
  | _ => None
  end.

(** [fetchFromService(ip, service, timeout)]: the abort at [timeout]
    makes the pending [await] throw, and every exception yields [null]. *)
Definition fetchFromService (name : string) (net : Fetch) (timeout : nat) : Promise :=
  if timeout <=? latency net
  then {| settleTime := timeout; settled := Fulfilled None |}
  else {| settleTime := latency net; settled := Fulfilled (fetchBody name (exchange net)) |}.

(** *** raceWithTimeout *)

(** An async generator, run: its yields, each with the instant at which
    the consumer receives it, then the instant at which it completes. *)
Inductive Gen :=
| Yield (at_ : nat) (value : option ServiceResult) (rest : Gen)
| Done (at_ : nat).

(** [Promise.race([promise, timeoutPromise])] with [timeoutPromise]
    rejecting at [totalTimeout]: the promise wins when it settles first
    or at that very instant (its own timer was set before the timer of
    [timeoutPromise], and it comes first in the array), the timeout when
    the promise settles later. *)
Definition raceTimeout (promise : Promise) (totalTimeout : nat) : Promise :=
  if settleTime promise <=? totalTimeout then promise
  else {| settleTime := totalTimeout; settled := Rejected "Total timeout" |}.

(** The [for (const promise of promises)] loop, entered at [now]. *)
Fixpoint raceFrom (now : nat) (promises : list Promise) (totalTimeout : nat) : Gen :=
  match promises with
  | [] => Done now
  | promise :: rest =>
      let raced := raceTimeout promise totalTimeout in
      let now' := Nat.max now (settleTime raced) in
      match settled raced with
      | Fulfilled result => Yield now' result (raceFrom now' rest totalTimeout)
      | Rejected message =>
          if String.eqb message "Total timeout" then Done now'
          else Yield now' None (raceFrom now' rest totalTimeout)
      end
  end.

Definition raceWithTimeout (promises : list Promise) (totalTimeout : nat) : Gen :=
  raceFrom 0 promises totalTimeout.

(** *** getTimezoneByConsensus *)

(** A [Map] from strings to numbers: entries in insertion order, and
    [set] on a present key keeps its place. *)
Definition JsMap := list (string * nat).

Fixpoint mapGet (m : JsMap) (key : string) : option nat :=
  match m with
  | [] => None
  | (k, v) :: m' => if String.eqb k key then Some v else mapGet m' key
  end.

Fixpoint mapSet (m : JsMap) (key : string) (value : nat) : JsMap :=
  match m with
  | [] => [(key, value)]
  | (k, v) :: m' =>
      if String.eqb k key then (k, value) :: m'
      else (k, v) :: mapSet m' key value
  end.

Record Tally := {
  results : list ServiceResult;
  tallyMap : JsMap;
  completedCount : nat
}.

Definition emptyTally : Tally :=
  {| results := []; tallyMap := []; completedCount := 0 |}.

Record Resolution := {
  res_timezone : option string;
  res_geo : option Geo;
  confidence : Q;
  responseTime : nat;
  sources : nat
}.

(** [Math.ceil(n / 2)]. *)
Definition majorityOf (n : nat) : nat := (n + 1) / 2.

(** [count / GEOIP_SERVICES.length], for a positive length (the
    function divides only after an outcome of one of the services). *)
Definition ratio (count n : nat) : Q := Z.of_nat count # Pos.of_nat n.

(** The [for await] loop over the generator: an early [return], or the
    tally and the instant at which the loop ends. *)
Fixpoint forAwait (n : nat) (st : Tally) (g : Gen) : Resolution + (Tally * nat) :=
  match g with
  | Done t => inr (st, t)
  | Yield t None rest => forAwait n st rest
  | Yield t (Some result) rest =>
      let completed := S (completedCount st) in
      let count := default 0 (mapGet (tallyMap st) (timezone result)) in
      let st' := {| results := results st ++ [result];
                    tallyMap := mapSet (tallyMap st) (timezone result) (count + 1);
                    completedCount := completed |} in
      if majorityOf n <=? count + 1 then
        inl {| res_timezone := Some (timezone result);
               res_geo := Some (geo result);
               confidence := ratio (count + 1) n;
               responseTime := t;
               sources := completed |}
      else forAwait n st' rest
  end.

(** One turn of [for (const [timezone, count] of tallyMap.entries())]. *)
Definition pickBest (seen : list ServiceResult)
    (best : option string * nat * option Geo) (entry : string * nat)
    : option string * nat * option Geo :=
  let '(bestTimezone, maxCount, bestGeo) := best in
  let '(tz, count) := entry in
  if maxCount <? count
  then (Some tz, count, geo <$> List.find (fun r => String.eqb (timezone r) tz) seen)
  else best.

Definition bestGuess (st : Tally) : option string * nat * option Geo :=
  fold_left (pickBest (results st)) (tallyMap st) (None, 0, None).

Definition AllFailed : string := "All GeoIP services failed or timed out".

(** The function from [const startTime] on, given the promises made of
    the registered services ([n] of them). *)
Definition consensusOver (promises : list Promise) (totalTimeout : nat)
    : Completion Resolution :=
  let n := length promises in
  match forAwait n emptyTally (raceWithTimeout promises totalTimeout) with
  | inl r => Returns r
  | inr (st, t) =>
      if 0 <? length (tallyMap st) then
        let '(bestTimezone, maxCount, bestGeo) := bestGuess st in
        Returns {| res_timezone := bestTimezone;
                   res_geo := bestGeo;
                   confidence := ratio maxCount n;
                   responseTime := t;
                   sources := completedCount st |}
      else Throws AllFailed
  end.

(** [GEOIP_SERVICES.map(service => fetchFromService(ip, service, timeout))],
    [network] telling what each service's request meets. *)
Definition startAll (network : string -> Fetch) (timeout : nat) : list Promise :=
  map (fun name => fetchFromService name (network name) timeout) GEOIP_SERVICES.

Definition getTimezoneByConsensus (network : string -> Fetch)
    (timeout totalTimeout : nat) : Completion Resolution :=
  consensusOver (startAll network timeout) totalTimeout.

(** *** getTimezoneFirst *)

(** [async p => { const res = await p; if (res) return res; throw ... }]
    with the value narrowed to a result. *)
Inductive Settled1 :=
| Fulfilled1 (value : ServiceResult)
| Rejected1 (message : string).

Definition orFail (p : Promise) : nat * Settled1 :=
  (settleTime p,
   match settled p with
   | Fulfilled (Some res) => Fulfilled1 res
   | Fulfilled None => Rejected1 "Service failed"
   | Rejected message => Rejected1 message
   end).

(** [Promise.race]: settles as the first of its promises to settle,
    the earlier in the array when two settle together; never, when the
    array is empty. *)
Fixpoint promiseRace (ps : list (nat * Settled1)) : option (nat * Settled1) :=
  match ps with
  | [] => None
  | p :: rest =>
      match promiseRace rest with
      | Some q => if fst q <? fst p then Some q else Some p
      | None => Some p
      end
  end.

(** What [getTimezoneFirst] returns: [{ timezone, geo, service }]. *)
Definition firstOver (promises : list Promise) : Completion ServiceResult :=
  match promiseRace (map orFail promises) with
  | Some (_, Fulfilled1 result) =>
      Returns {| timezone := timezone result; geo := geo result; service := service result |}
  | Some (_, Rejected1 message) => Throws message
  | None => Pending
  end.

Definition getTimezoneFirst (network : string -> Fetch) (timeout : nat)
    : Completion ServiceResult :=
  firstOver (startAll network timeout).

End GeoIP.

(* ===================================================================== *)
(** ** src/index.js: the [/timezone] route *)
(* ===================================================================== *)

Module Index.

Import GeoIP.

(** [a || b] on values that are strings, undefined or null. *)
Definition orElse (a b : option string) : option string :=
  if truthy a then a else b.

(** The fields of [request.cf] the route reads. *)
Record Cf := {
  cf_country : option string;
  cf_city : option string;
  cf_region : option string;
  cf_timezone : option string;
  cf_latitude : option string;
  cf_longitude : option string
}.

(** A request: [request.headers.get], [request.cf] and the
    [searchParams.get] of its URL. *)
Record Request := {
  headers : string -> option string;
  cf : option Cf;
  searchParams : string -> option string
}.

(** [request.cf?.field]. *)
Definition cfField (field : Cf -> option string) (request : Request) : option string :=
  match cf request with
  | Some c => field c
  | None => None
  end.

(** The value of [sources]: a text, a number or [undefined]. *)
Inductive SourcesValue :=
| SourcesText (text : string)
| SourcesNumber (n : nat)
| SourcesUndefined.

(** [result.timezone], a string or null, as a value. *)
Definition valueOf (v : option string) : Utils.JsValue :=
  match v with
  | Some s => Utils.JsString s
  | None => Utils.JsUndefined
  end.

(** What the route has settled before it formats the time: the fields
    [ip], [timezone], [...geo], [confidence] and [sources] of the body. *)
Record TimezoneAnswer := {
  targetIp : option string;
  timezone : Utils.JsValue;
  geo : option Geo;
  confidence : Q;
  sources : SourcesValue
}.

(** The route answers with these fields, or with status 500 and the
    message of the error, or waits for ever. *)
Inductive RouteOutcome :=
| Answered (answer : TimezoneAnswer)
| Failed (message : string)
| Hangs.

(** The default [timeout] of both modes and the default [totalTimeout],
    in milliseconds. *)
Definition DEFAULT_TIMEOUT : nat := 5000.
Definition DEFAULT_TOTAL_TIMEOUT : nat := 8 * 1000.

Section Route.
(** The tables of [./timezone-data] with the environment they are read
    in, and what the request of each service meets for a given address. *)
Variables CITY_TIMEZONE COUNTRY_TIMEZONE : gmap string string.
Variable COUNTRY_REGION_TIMEZONE : gmap string (gmap string string).
Variable member : string -> string -> Utils.JsValue.
Variable network : option string -> string -> Fetch.

(** The caller's address. *)
Definition callerIp (request : Request) : option string :=
  orElse (orElse (headers request "cf-connecting-ipv6")
                 (headers request "cf-connecting-ip"))
         (headers request "x-real-ip").

(** The branch [if (!queryIp || queryIp === ip)]: Cloudflare's data. *)
Definition fromCloudflare (request : Request) (target : option string) : TimezoneAnswer :=
  let country := orElse (cfField cf_country request) (headers request "cf-ipcountry") in
  let city := orElse (cfField cf_city request) (headers request "cf-ipcity") in
  let countryRegion := orElse (cfField cf_region request) (headers request "cf-region") in
  let cfTimezone := cfField cf_timezone request in
  {| targetIp := target;
     timezone :=
       Utils.getTimezone CITY_TIMEZONE COUNTRY_TIMEZONE COUNTRY_REGION_TIMEZONE member
         {| Utils.city := city; Utils.country := country;
            Utils.countryRegion := countryRegion; Utils.cfTimezone := cfTimezone |};
     geo := Some {| GeoIP.country := country;
                    GeoIP.countryRegion := countryRegion;
                    GeoIP.city := city;
                    latitude := orElse (cfField cf_latitude request)
                                       (headers request "cf-iplatitude");
                    longitude := orElse (cfField cf_longitude request)
                                        (headers request "cf-iplongitude") |};
     confidence := 1;
     sources := SourcesText "cloudflare" |}.

(** The branch [else]: the services, in the mode asked for. *)
Definition fromServices (mode target : option string) : RouteOutcome :=
  if bool_decide (mode = Some "first") then
    match getTimezoneFirst (network target) DEFAULT_TIMEOUT with
    | Returns result =>
        Answered {| targetIp := target;
                    timezone := Utils.JsString (GeoIP.timezone result);
                    geo := Some (GeoIP.geo result);
                    confidence := 1;
                    sources := SourcesText (service result) |}
    | Throws message => Failed message
    | Pending => Hangs
    end
  else
    match getTimezoneByConsensus (network target) DEFAULT_TIMEOUT DEFAULT_TOTAL_TIMEOUT with
    | Returns result =>
        Answered {| targetIp := target;
                    timezone := valueOf (res_timezone result);
                    geo := res_geo result;
                    confidence :=
                      if Qeq_bool (GeoIP.confidence result) 0 then 1
                      else GeoIP.confidence result;
                    sources :=
                      if GeoIP.sources result =? 0 then SourcesUndefined
                      else SourcesNumber (GeoIP.sources result) |}
    | Throws message => Failed message
    | Pending => Hangs
    end.

(** The route [/timezone], up to the formatting of the time. *)
Definition timezoneRoute (request : Request) : RouteOutcome :=
  let ip := callerIp request in
  let queryIp := searchParams request "ip" in
  let target := orElse queryIp ip in
  let mode := orElse (searchParams request "mode") (Some "consensus") in
  if negb (truthy queryIp) || bool_decide (queryIp = ip)
  then Answered (fromCloudflare request target)
  else fromServices mode target.
End Route.

End Index.

(* ===================================================================== *)
(** ** Vocabulary of the statements *)
(* ===================================================================== *)

Import GeoIP.

(** The outcomes a generator yields, with their instants of delivery. *)
Fixpoint yields (g : Gen) : list (nat * option ServiceResult) :=
  match g with
  | Yield t v rest => (t, v) :: yields rest
  | Done _ => []
  end.

Fixpoint doneAt (g : Gen) : nat :=
  match g with
  | Yield _ _ rest => doneAt rest
  | Done t => t
  end.

(** The Observed outcomes among deliveries, in order. *)
Fixpoint observed (evs : list (nat * option ServiceResult)) : list ServiceResult :=
  match evs with
  | [] => []
  | (_, Some r) :: evs' => r :: observed evs'
  | (_, None) :: evs' => observed evs'
  end.

(** The number of results naming the identifier [tz]. *)
Definition votes (tz : string) (rs : list ServiceResult) : nat :=
  length (List.filter (fun r => String.eqb (timezone r) tz) rs).

(** No identifier has a majority of [n] among [rs]. *)
Definition NoMajority (n : nat) (rs : list ServiceResult) : Prop :=
  forall tz, votes tz rs < majorityOf n.

Definition keys (m : JsMap) : list string := map fst m.

(** One turn of the tally on a result, as [forAwait] does it. *)
Definition bump (m : JsMap) (r : ServiceResult) : JsMap :=
  mapSet m (timezone r) (default 0 (mapGet m (timezone r)) + 1).

(** The tally map after the results [rs], from the empty map. *)
Definition tallyOf (rs : list ServiceResult) : JsMap := fold_left bump rs [].

(** A tally that [forAwait] can be in. *)
Definition TallyInv (st : Tally) : Prop :=
  tallyMap st = tallyOf (results st) /\ completedCount st = length (results st).

(** The tally reached after the results [rs]. *)
Definition tallyAfter (rs : list ServiceResult) : Tally :=
  {| results := rs; tallyMap := tallyOf rs; completedCount := length rs |}.


(** A promise at which the loop of [raceWithTimeout] breaks: it settles
    after the total timeout (or rejects with that very message). *)
Definition stops (T : nat) (p : Promise) : bool :=
  (T <? settleTime p) ||
  match settled p with
  | Rejected message => String.eqb message "Total timeout"
  | Fulfilled _ => false
  end.

(** The promises reached before the loop breaks. *)
Fixpoint live (T : nat) (ps : list Promise) : list Promise :=
  match ps with
  | [] => []
  | p :: rest => if stops T p then [] else p :: live T rest
  end.

(** What the generator yields for a promise that does not stop it. *)
Definition outcomeOf (p : Promise) : option ServiceResult :=
  match settled p with
  | Fulfilled v => v
  | Rejected _ => None
  end.

(** Deliveries one after the other: none before the previous one. *)
Fixpoint deliver (now : nat) (ps : list Promise) : list (nat * option ServiceResult) :=
  match ps with
  | [] => []
  | p :: rest =>
      let now' := Nat.max now (settleTime p) in
      (now', outcomeOf p) :: deliver now' rest
  end.


(** The deliveries the [for await] loop takes before it ends: all of
    them, or those up to the first that completes a majority. *)
Fixpoint consumedBy (n : nat) (rs : list ServiceResult)
    (evs : list (nat * option ServiceResult)) : list (nat * option ServiceResult) :=
  match evs with
  | [] => []
  | (t, None) :: evs' => (t, None) :: consumedBy n rs evs'
  | (t, Some r) :: evs' =>
      if majorityOf n <=? votes (timezone r) rs + 1 then [(t, Some r)]
      else (t, Some r) :: consumedBy n (rs ++ [r]) evs'
  end.

Definition consumed (ps : list Promise) (T : nat) : list (nat * option ServiceResult) :=
  consumedBy (length ps) [] (yields (raceWithTimeout ps T)).


(** [NoMajority], decided on the identifiers that occur. *)
Definition noMajorityb (n : nat) (rs : list ServiceResult) : bool :=
  (0 <? majorityOf n) &&
  forallb (fun r => votes (timezone r) rs <? majorityOf n) rs.

(** *** What the statements compare the code with *)

(** The Observed outcomes that the services produce by the total
    timeout, in registration order, delivered to the loop or not. *)
Definition produced (ps : list Promise) (T : nat) : list ServiceResult :=
  observed (map (fun p => (settleTime p, outcomeOf p))
                (List.filter (fun p => settleTime p <=? T) ps)).

(** "The call fails if and only if zero Observed outcomes were produced
    during the call". *)
Definition failsIffNothingProducedAsStated (ps : list Promise) (T : nat) : Prop :=
  consensusOver ps T = Throws AllFailed <-> produced ps T = [].




(** The Observed outcome of the promise that settles first among those
    that have one (the earlier registered, of two that settle together). *)
Fixpoint earliestObserved (ps : list Promise) : option (nat * ServiceResult) :=
  match ps with
  | [] => None
  | p :: rest =>
      match outcomeOf p, earliestObserved rest with
      | Some r, Some (t', r') =>
          if t' <? settleTime p then Some (t', r') else Some (settleTime p, r)
      | Some r, None => Some (settleTime p, r)
      | None, later => later
      end
  end.

(** Insertion before the first delivery that is not earlier. *)
Fixpoint insertByTime (ev : nat * option ServiceResult)
    (evs : list (nat * option ServiceResult)) : list (nat * option ServiceResult) :=
  match evs with
  | [] => [ev]
  | ev' :: evs' =>
      if fst ev <=? fst ev' then ev :: evs else ev' :: insertByTime ev evs'
  end.

(** "Each outcome as soon as it is available, in completion order": the
    outcomes that settle before [T], each at its own instant, sorted by
    that instant. *)
Definition completionOrder (ps : list Promise) (T : nat) : list (nat * option ServiceResult) :=
  fold_right insertByTime []
    (map (fun p => (settleTime p, outcomeOf p))
         (List.filter (fun p => settleTime p <? T) ps)).

Definition completionOrderAsStated (ps : list Promise) (T : nat) : Prop :=
  yields (raceWithTimeout ps T) = completionOrder ps T.

(** "[sources] is the number of providers that produced any outcome,
    Observed or Absent". *)
Definition sourcesAsStated (ps : list Promise) (T : nat) : Prop :=
  forall res, consensusOver ps T = Returns res ->
    sources res = length (consumed ps T).

(** The geo of the first result naming [tz]. *)
Definition firstSeenGeo (tz : string) (rs : list ServiceResult) : option Geo :=
  geo <$> List.find (fun r => String.eqb (timezone r) tz) rs.

(** "The geo returned is that of the first Observed outcome seen for the
    winning identifier". *)
Definition geoAsStated (ps : list Promise) (T : nat) : Prop :=
  forall res, consensusOver ps T = Returns res ->
    exists tz, res_timezone res = Some tz /\
      res_geo res = firstSeenGeo tz (observed (consumed ps T)).

(** *** The cascade of [getTimezone] in the words of its comments *)

(** A value that is there: defined and not the empty string. *)
Definition present (v : option string) : option string :=
  if truthy v then v else None.

Section Cascade.
Variables CITY_TIMEZONE COUNTRY_TIMEZONE : gmap string string.
Variable COUNTRY_REGION_TIMEZONE : gmap string (gmap string string).

Definition regionEntry (q : Utils.GeoQuery) : option string :=
  match present (Utils.country q), present (Utils.countryRegion q) with
  | Some c, Some r =>
      match COUNTRY_REGION_TIMEZONE !! c with
      | Some regionMap => present (regionMap !! r)
      | None => None
      end
  | _, _ => None
  end.

Definition cityEntry (q : Utils.GeoQuery) : option string :=
  match present (Utils.city q) with
  | Some c => present (CITY_TIMEZONE !! c)
  | None => None
  end.

Definition countryEntry (q : Utils.GeoQuery) : option string :=
  match present (Utils.country q) with
  | Some c => present (COUNTRY_TIMEZONE !! c)
  | None => None
  end.

(** The first of: Cloudflare's timezone, the region entry, the city
    entry, the country entry, ["UTC"]. *)
Definition cascade (q : Utils.GeoQuery) : string :=
  match present (Utils.cfTimezone q), regionEntry q, cityEntry q, countryEntry q with
  | Some tz, _, _, _ => tz
  | None, Some tz, _, _ => tz
  | None, None, Some tz, _ => tz
  | None, None, None, Some tz => tz
  | None, None, None, None => "UTC"
  end.
End Cascade.

(** How the call ends when the race is won by [p]. *)
Definition decidedBy (p : Promise) : Completion ServiceResult :=
  match settled p with
  | Fulfilled (Some r) => Returns r
  | Fulfilled None => Throws "Service failed"
  | Rejected message => Throws message
  end.

(** *** Flags and offsets *)

(** The letters behind the code points of a flag. *)
Definition decodeFlag (flag : list N) : string :=
  string_of_list_ascii
    (map (fun cp => ascii_of_N (cp - Utils.EMOJI_FLAG_UNICODE_STARTING_POSITION)) flag).

(** The decimal digit [d], as a character. *)
Definition digitChar (d : Z) : ascii := ascii_of_N (48 + Z.to_N d).

(** The text [±HH:MM] of a number of minutes. *)
Definition signedHHMM (minutes : Z) : string :=
  let h := (Z.abs minutes / 60)%Z in
  let m := (Z.abs minutes mod 60)%Z in
  String (if (0 <=? minutes)%Z then "+" else "-")%char
    (String (digitChar (h / 10)) (String (digitChar (h mod 10))
      (String ":" (String (digitChar (m / 10)) (String (digitChar (m mod 10)) ""))))).

(** The minutes that [getTimezoneOffsetMinutes] reads off the text of the
    [timeZoneName] part, when it does not fall back. *)
Definition minutesOfText (value : string) : option Z :=
  match Utils.getTimezoneOffsetMinutes (Utils.IntlParts (Some value) 0),
        Utils.getTimezoneOffsetMinutes (Utils.IntlParts (Some value) 1) with
  | a, b => if (a =? b)%Z then Some a else None
  end.

(** [P] on the [fuel] integers from [z] on. *)
Fixpoint allFrom (fuel : nat) (z : Z) (P : Z -> bool) : bool :=
  match fuel with
  | O => true
  | S fuel' => P z && allFrom fuel' (z + 1)%Z P
  end.

(** A key that names nothing an object literal inherits (any key but
    the twelve names of [Object.prototype]); no key is one too. *)
Definition plainKey (key : option string) : bool :=
  match key with
  | Some k =>
      match Utils.inherited k with
      | Utils.JsUndefined => true
      | _ => false
      end
  | None => true
  end.

(** A query whose city is named like a property that every object
    inherits. *)
Definition constructorCity : Utils.GeoQuery :=
  {| Utils.city := Some "constructor"; Utils.country := None;
     Utils.countryRegion := None; Utils.cfTimezone := None |}.

(** *** Requests *)

(** A caller at 203.0.113.7, seen by Cloudflare in Japan. *)
Definition callerHeaders (name : string) : option string :=
  if String.eqb name "cf-connecting-ip" then Some "203.0.113.7"
  else if String.eqb name "cf-ipcountry" then Some "JP"
  else None.

(** The caller asks for its own timezone. *)
Definition ownRequest : Index.Request :=
  {| Index.headers := callerHeaders; Index.cf := None;
     Index.searchParams := fun _ => None |}.

(** The query that the route builds from Cloudflare's fields and
    headers for a caller who asks for its own timezone. *)
Definition cloudflareQuery (request : Index.Request) : Utils.GeoQuery :=
  {| Utils.city := Index.orElse (Index.cfField Index.cf_city request)
                     (Index.headers request "cf-ipcity");
     Utils.country := Index.orElse (Index.cfField Index.cf_country request)
                        (Index.headers request "cf-ipcountry");
     Utils.countryRegion := Index.orElse (Index.cfField Index.cf_region request)
                              (Index.headers request "cf-region");
     Utils.cfTimezone := Index.cfField Index.cf_timezone request |}.

(** The same caller, behind a proxy that names its city "constructor". *)
Definition constructorRequest : Index.Request :=
  {| Index.headers := fun name =>
       if String.eqb name "cf-ipcity" then Some "constructor" else callerHeaders name;
     Index.cf := None;
     Index.searchParams := fun _ => None |}.

(** The caller asks for the timezone of 198.51.100.9, in the mode given. *)
Definition remoteRequest (mode : option string) : Index.Request :=
  {| Index.headers := callerHeaders; Index.cf := None;
     Index.searchParams := fun name =>
       if String.eqb name "ip" then Some "198.51.100.9"
       else if String.eqb name "mode" then mode
       else None |}.

(** *** Scenarios *)

Definition geoOf (place : string) : Geo :=
  {| country := None; countryRegion := None; city := Some place;
     latitude := None; longitude := None |}.

Definition answered (tz place svc : string) : ServiceResult :=
  {| timezone := tz; geo := geoOf place; service := svc |}.

(** A fetch that resolves at [t] with a result. *)
Definition answers (t : nat) (tz place svc : string) : Promise :=
  {| settleTime := t; settled := Fulfilled (Some (answered tz place svc)) |}.

(** A fetch that resolves at [t] with [null]. *)
Definition silent (t : nat) : Promise :=
  {| settleTime := t; settled := Fulfilled None |}.

(** Three quick votes for London, two slow ones for Paris. *)
Definition londonFirst : list Promise :=
  [ answers 100 "Europe/London" "London" "ipapi.co";
    answers 150 "Europe/London" "London" "ipwho.is";
    answers 120 "Europe/London" "Leeds" "ip-api.com";
    answers 400 "Europe/Paris" "Paris" "reallyfreegeoip.org";
    answers 490 "Europe/Paris" "Paris" "freeipapi.com" ].

(** Two votes each, Seoul the first to have two. *)
Definition tokyoSeoul : list Promise :=
  [ answers 100 "Asia/Tokyo" "Tokyo" "ipapi.co";
    answers 200 "Asia/Seoul" "Seoul" "ipwho.is";
    answers 300 "Asia/Seoul" "Busan" "ip-api.com";
    answers 400 "Asia/Tokyo" "Osaka" "reallyfreegeoip.org";
    silent 500 ].

Definition allLate : list Promise :=
  [ silent 900; answers 910 "Europe/London" "London" "ipwho.is" ].

(** The first service fails at once, the second answers later. *)
Definition failsThenAnswers : list Promise :=
  [ silent 10; answers 200 "Europe/London" "London" "ipwho.is" ].

Definition flakyNetwork (name : string) : Fetch :=
  if String.eqb name "ipapi.co"
  then {| latency := 10; exchange := HttpNotOk 500 |}
  else {| latency := 200; exchange := Parsed (Some "Europe/London") (geoOf "London") |}.

(** The first registered service is the slower one. *)
Definition slowThenFast : list Promise :=
  [ answers 100 "Europe/London" "London" "ipapi.co";
    answers 1 "Europe/Paris" "Paris" "ipwho.is" ].

(** The first registered service hangs past the deadline, the second
    answers at once. *)
Definition hangingFirst : list Promise :=
  [ silent 900; answers 10 "Europe/London" "London" "ipwho.is" ].

(** Three services answer [null], two disagree. *)
Definition mostlySilent : list Promise :=
  [ silent 10;
    answers 20 "Europe/London" "London" "ipwho.is";
    answers 30 "Europe/Paris" "Paris" "ip-api.com";
    silent 40;
    silent 50 ].

(** Two services name London, with different geo. *)
Definition twoLondons : list Promise :=
  [ answers 10 "Europe/London" "London" "ipapi.co";
    answers 20 "Europe/London" "Leeds" "ipwho.is";
    answers 30 "Europe/Paris" "Paris" "ip-api.com" ].

(** The last service answers after the deadline, in two ways. *)
Definition lateParis : list Promise :=
  [ answers 100 "Europe/London" "London" "ipapi.co";
    silent 200;
    answers 900 "Europe/Paris" "Paris" "ip-api.com" ].


(* ===================================================================== *)
(** ** Lists, votes and the insertion-ordered map *)
(* ===================================================================== *)

Section MapFacts.

Lemma observed_app evs1 evs2 : observed (evs1 ++ evs2) = observed evs1 ++ observed evs2.
Proof.
  induction evs1 as [|[t [r|]] evs1 IH]; simpl; [reflexivity | | exact IH].
  now rewrite IH.
Qed.

Lemma votes_nil tz : votes tz [] = 0.
Proof. reflexivity. Qed.

Lemma votes_app tz rs1 rs2 : votes tz (rs1 ++ rs2) = votes tz rs1 + votes tz rs2.
Proof. unfold votes. now rewrite List.filter_app, List.length_app. Qed.

Lemma votes_one tz r :
  votes tz [r] = if String.eqb (timezone r) tz then 1 else 0.
Proof. unfold votes; simpl. now destruct (String.eqb (timezone r) tz). Qed.

Lemma votes_le_length tz rs : votes tz rs <= length rs.
Proof.
  unfold votes. induction rs as [|r rs IH]; simpl; [lia|].
  destruct (String.eqb (timezone r) tz); simpl; lia.
Qed.

Lemma votes_pos_in tz rs :
  0 < votes tz rs <-> exists r, In r rs /\ timezone r = tz.
Proof.
  unfold votes. induction rs as [|r rs IH]; simpl.
  - split; [lia | intros (r & [] & _)].
  - destruct (String.eqb_spec (timezone r) tz) as [E|E]; simpl.
    + split; [intros _; exists r; auto | lia].
    + rewrite IH. split.
      * intros (r' & Hin & Htz). exists r'; auto.
      * intros (r' & [->|Hin] & Htz); [contradiction | exists r'; auto].
Qed.

Lemma mapGet_mapSet m k v k' :
  mapGet (mapSet m k v) k' = if String.eqb k k' then Some v else mapGet m k'.
Proof.
  induction m as [|[k0 v0] m IH]; simpl.
  - reflexivity.
  - destruct (String.eqb_spec k0 k) as [->|Hne]; simpl.
    + destruct (String.eqb k k'); reflexivity.
    + rewrite IH. destruct (String.eqb_spec k k') as [E|Hne'].
      * subst k'. destruct (String.eqb_spec k0 k); [contradiction | reflexivity].
      * destruct (String.eqb_spec k0 k'); reflexivity.
Qed.

Lemma mapGet_None_keys m k : mapGet m k = None <-> ~ In k (keys m).
Proof.
  induction m as [|[k0 v0] m IH]; simpl.
  - tauto.
  - destruct (String.eqb_spec k0 k) as [->|Hne].
    + split; [discriminate | tauto].
    + rewrite IH. tauto.
Qed.

Lemma mapGet_Some_In m k v : mapGet m k = Some v -> In (k, v) m.
Proof.
  induction m as [|[k0 v0] m IH]; simpl; [discriminate|].
  destruct (String.eqb_spec k0 k) as [->|Hne].
  - intros [= ->]. now left.
  - intros H. right. now apply IH.
Qed.

Lemma mapGet_split m1 k v m2 :
  ~ In k (keys m1) -> mapGet (m1 ++ (k, v) :: m2) k = Some v.
Proof.
  induction m1 as [|[k0 v0] m1 IH]; simpl; intros Hnin.
  - now rewrite String.eqb_refl.
  - destruct (String.eqb_spec k0 k) as [->|Hne]; [tauto|].
    apply IH. tauto.
Qed.

Lemma keys_mapSet m k v :
  keys (mapSet m k v) =
  match mapGet m k with Some _ => keys m | None => keys m ++ [k] end.
Proof.
  induction m as [|[k0 v0] m IH]; simpl; [reflexivity|].
  destruct (String.eqb_spec k0 k) as [->|Hne]; simpl; [reflexivity|].
  rewrite IH. now destruct (mapGet m k).
Qed.

End MapFacts.

(* ===================================================================== *)
(** ** The tally map counts votes, in order of first appearance *)
(* ===================================================================== *)

Section TallyFacts.

Lemma tallyOf_snoc rs r : tallyOf (rs ++ [r]) = bump (tallyOf rs) r.
Proof. unfold tallyOf. now rewrite fold_left_app. Qed.

(** The map holds exactly the identifiers voted for, with their votes. *)
Lemma tallyOf_get rs tz :
  mapGet (tallyOf rs) tz =
  if votes tz rs =? 0 then None else Some (votes tz rs).
Proof.
  induction rs as [|r rs IH] using rev_ind; [reflexivity|].
  rewrite tallyOf_snoc, votes_app, votes_one. unfold bump.
  rewrite mapGet_mapSet.
  destruct (String.eqb_spec (timezone r) tz) as [->|Hne].
  - rewrite IH. destruct (Nat.eqb_spec (votes tz rs) 0) as [E|E]; simpl.
    + rewrite E. reflexivity.
    + destruct (Nat.eqb_spec (votes tz rs + 1) 0); [lia | reflexivity].
  - now rewrite IH, Nat.add_0_r.
Qed.

Lemma tallyOf_default rs tz : default 0 (mapGet (tallyOf rs) tz) = votes tz rs.
Proof.
  rewrite tallyOf_get. destruct (Nat.eqb_spec (votes tz rs) 0) as [E|E]; simpl; auto.
Qed.

Lemma tallyOf_keys_snoc rs r :
  keys (tallyOf (rs ++ [r])) =
  if votes (timezone r) rs =? 0 then keys (tallyOf rs) ++ [timezone r]
  else keys (tallyOf rs).
Proof.
  rewrite tallyOf_snoc. unfold bump. rewrite keys_mapSet, tallyOf_get.
  now destruct (votes (timezone r) rs =? 0).
Qed.

Lemma tallyOf_key_of_result rs r : In r rs -> In (timezone r) (keys (tallyOf rs)).
Proof.
  intros Hin.
  destruct (in_dec string_dec (timezone r) (keys (tallyOf rs))) as [H|H]; [exact H|].
  apply mapGet_None_keys in H. rewrite tallyOf_get in H.
  assert (0 < votes (timezone r) rs) by (apply votes_pos_in; eauto).
  destruct (Nat.eqb_spec (votes (timezone r) rs) 0); [lia | discriminate].
Qed.

Lemma tallyOf_NoDup rs : List.NoDup (keys (tallyOf rs)).
Proof.
  induction rs as [|r rs IH] using rev_ind; [constructor|].
  rewrite tallyOf_keys_snoc.
  destruct (Nat.eqb_spec (votes (timezone r) rs) 0) as [E|E]; [|exact IH].
  apply List.NoDup_app; [exact IH | repeat constructor; intros [] |].
  intros x Hx [E'|[]]. subst x.
  pose proof (tallyOf_get rs (timezone r)) as Hg. rewrite E in Hg; simpl in Hg.
  apply mapGet_None_keys in Hg. contradiction.
Qed.

(** An entry of the map is the vote count of its identifier. *)
Lemma tallyOf_entry rs tz c : In (tz, c) (tallyOf rs) -> c = votes tz rs /\ 0 < c.
Proof.
  intros Hin. apply in_split in Hin as (m1 & m2 & Hm).
  pose proof (tallyOf_NoDup rs) as Hnd. pose proof (tallyOf_get rs tz) as Hg.
  rewrite Hm in Hnd, Hg. unfold keys in Hnd. rewrite map_app in Hnd; simpl in Hnd.
  apply NoDup_remove_2 in Hnd.
  rewrite mapGet_split in Hg by (intros H; apply Hnd, in_or_app; now left).
  destruct (Nat.eqb_spec (votes tz rs) 0); [discriminate|].
  injection Hg as ->. lia.
Qed.

(** Keys appear in the map in the order in which their identifiers
    first appear among the results. *)
Lemma tallyOf_order rs k1 tz k2 :
  keys (tallyOf rs) = k1 ++ tz :: k2 ->
  exists l1 r l2, rs = l1 ++ r :: l2 /\ timezone r = tz /\
    forall r', In r' l1 -> In (timezone r') k1.
Proof.
  revert k1 tz k2. induction rs as [|r rs IH] using rev_ind; intros k1 tz k2.
  - simpl. intros H. now destruct k1.
  - rewrite tallyOf_keys_snoc.
    destruct (Nat.eqb_spec (votes (timezone r) rs) 0) as [E|E]; intros Hk.
    + destruct k2 as [|y k2] using rev_ind.
      * apply app_inj_tail in Hk as [Hk <-].
        exists rs, r, []. split; [reflexivity|]. split; [reflexivity|].
        intros r' Hin. rewrite <- Hk. now apply tallyOf_key_of_result.
      * clear IHk2.
        change (keys (tallyOf rs) ++ [timezone r] = k1 ++ (tz :: k2) ++ [y]) in Hk.
        rewrite app_assoc in Hk. apply app_inj_tail in Hk as [Hk _].
        destruct (IH _ _ _ Hk) as (l1 & r0 & l2 & -> & Htz & Hl1).
        exists l1, r0, (l2 ++ [r]). rewrite <- app_assoc. auto.
    + destruct (IH _ _ _ Hk) as (l1 & r0 & l2 & -> & Htz & Hl1).
      exists l1, r0, (l2 ++ [r]). rewrite <- app_assoc. auto.
Qed.

End TallyFacts.

(* ===================================================================== *)
(** ** The best guess: the first entry with the greatest count *)
(* ===================================================================== *)

Section BestGuess.

Lemma find_first (tz : string) l1 r l2 :
  timezone r = tz ->
  (forall r', In r' l1 -> timezone r' <> tz) ->
  List.find (fun x => String.eqb (timezone x) tz) (l1 ++ r :: l2) = Some r.
Proof.
  intros Hr. induction l1 as [|x l1 IH]; simpl; intros Hl1.
  - now rewrite Hr, String.eqb_refl.
  - destruct (String.eqb_spec (timezone x) tz) as [E|E].
    + exfalso. apply (Hl1 x); auto.
    + apply IH. intros r' Hin. apply Hl1. now right.
Qed.

(** The loop keeps its candidate when no entry beats it, and otherwise
    ends on the first entry whose count no later entry exceeds. *)
Lemma fold_pickBest seen m b mx g :
  (Forall (fun e => snd e <= mx) m /\
   fold_left (pickBest seen) m (b, mx, g) = (b, mx, g))
  \/
  (exists m1 tz c m2,
     m = m1 ++ (tz, c) :: m2 /\ mx < c /\
     Forall (fun e => snd e < c) m1 /\ Forall (fun e => snd e <= c) m2 /\
     fold_left (pickBest seen) m (b, mx, g) =
       (Some tz, c, geo <$> List.find (fun r => String.eqb (timezone r) tz) seen)).
Proof.
  revert b mx g. induction m as [|[tz0 c0] m IH]; intros b mx g; simpl.
  - left. split; [constructor | reflexivity].
  - destruct (Nat.ltb_spec mx c0) as [Hlt|Hge].
    + right.
      destruct (IH (Some tz0) c0
                  (geo <$> List.find (fun r => String.eqb (timezone r) tz0) seen))
        as [[Hall Heq] | (m1 & tz & c & m2 & -> & Hc & H1 & H2 & Heq)].
      * exists [], tz0, c0, m. repeat split; auto.
      * exists ((tz0, c0) :: m1), tz, c, m2. repeat split; auto; try lia;
          try (constructor; [simpl; lia | exact H1]).
    + destruct (IH b mx g)
        as [[Hall Heq] | (m1 & tz & c & m2 & -> & Hc & H1 & H2 & Heq)].
      * left. split; [constructor; [exact Hge | exact Hall] | exact Heq].
      * right. exists ((tz0, c0) :: m1), tz, c, m2. repeat split; auto;
          try (constructor; [simpl; lia | exact H1]).
Qed.

(** On a tally with at least one result, the best guess is the
    identifier of some result [r] with the greatest number of votes, no
    result before [r] having as many, and the geo is that of [r]. *)
Lemma bestGuess_spec st :
  TallyInv st -> results st <> [] ->
  exists l1 r l2,
    results st = l1 ++ r :: l2 /\
    bestGuess st = (Some (timezone r), votes (timezone r) (results st), Some (geo r)) /\
    (forall tz, votes tz (results st) <= votes (timezone r) (results st)) /\
    (forall r', In r' l1 ->
       votes (timezone r') (results st) < votes (timezone r) (results st)).
Proof.
  intros [Hmap _] Hne. unfold bestGuess. rewrite Hmap.
  set (rs := results st) in *.
  destruct (fold_pickBest rs (tallyOf rs) None 0 None)
    as [[Hall _] | (m1 & tz & c & m2 & Hm & Hc & H1 & H2 & Heq)].
  - exfalso. destruct rs as [|r0 rs0] eqn:Ers; [congruence|]. rewrite <- Ers in *.
    assert (Hin : In r0 rs) by (rewrite Ers; now left).
    assert (Hpos : 0 < votes (timezone r0) rs) by (apply votes_pos_in; eauto).
    pose proof (tallyOf_get rs (timezone r0)) as Hg.
    destruct (Nat.eqb_spec (votes (timezone r0) rs) 0); [lia|].
    apply mapGet_Some_In in Hg.
    rewrite List.Forall_forall in Hall. apply Hall in Hg. simpl in Hg. lia.
  - assert (Hk : keys (tallyOf rs) = keys m1 ++ tz :: keys m2).
    { rewrite Hm. unfold keys. now rewrite map_app. }
    destruct (tallyOf_order _ _ _ _ Hk) as (l1 & r & l2 & Hrs & Htz & Hl1).
    assert (Hcv : c = votes tz rs).
    { apply (tallyOf_entry rs tz c). rewrite Hm. apply in_or_app. right. now left. }
    assert (Hbefore : forall r', In r' l1 -> votes (timezone r') rs < c).
    { intros r' Hin. apply Hl1 in Hin. unfold keys in Hin.
      apply in_map_iff in Hin as ([k c'] & Hk' & Hin). simpl in Hk'. subst k.
      rewrite List.Forall_forall in H1. pose proof (H1 _ Hin) as Hlt. simpl in Hlt.
      assert (In (timezone r', c') (tallyOf rs))
        by (rewrite Hm; apply in_or_app; now left).
      apply tallyOf_entry in H as [-> _]. exact Hlt. }
    exists l1, r, l2. subst tz. split; [exact Hrs|]. split; [|split].
    + rewrite Heq. rewrite Hrs at 1. rewrite find_first; [now rewrite Hcv | reflexivity |].
      intros r' Hin E. apply Hbefore in Hin. rewrite E in Hin. lia.
    + intros tz. rewrite <- Hcv.
      pose proof (tallyOf_get rs tz) as Hg.
      destruct (Nat.eqb_spec (votes tz rs) 0) as [E|E]; [lia|].
      apply mapGet_Some_In in Hg. rewrite Hm in Hg.
      rewrite List.Forall_forall in H1, H2.
      apply in_app_or in Hg as [Hg|[Hg|Hg]].
      * apply H1 in Hg. simpl in Hg. lia.
      * injection Hg as _ <-. lia.
      * apply H2 in Hg. simpl in Hg. lia.
    + intros r' Hin. rewrite <- Hcv. now apply Hbefore.
Qed.

End BestGuess.

(* ===================================================================== *)
(** ** The [for await] loop *)
(* ===================================================================== *)

Section Loop.

Lemma tallyAfter_inv rs : TallyInv (tallyAfter rs).
Proof. split; reflexivity. Qed.

Lemma majorityOf_pos n : 0 < n -> 0 < majorityOf n.
Proof.
  intros Hn. unfold majorityOf.
  apply Nat.div_str_pos. lia.
Qed.

Lemma NoMajority_nil n : 0 < n -> NoMajority n [].
Proof. intros Hn tz. rewrite votes_nil. now apply majorityOf_pos. Qed.

(** One Observed outcome taken from the tally after [rs]. *)
Lemma forAwait_observed n rs t r rest :
  forAwait n (tallyAfter rs) (Yield t (Some r) rest) =
  if majorityOf n <=? votes (timezone r) rs + 1 then
    inl {| res_timezone := Some (timezone r);
           res_geo := Some (geo r);
           confidence := ratio (votes (timezone r) rs + 1) n;
           responseTime := t;
           sources := S (length rs) |}
  else forAwait n (tallyAfter (rs ++ [r])) rest.
Proof.
  simpl. rewrite tallyOf_default.
  destruct (majorityOf n <=? votes (timezone r) rs + 1); [reflexivity|].
  f_equal. unfold tallyAfter. f_equal.
  - rewrite tallyOf_snoc. unfold bump. now rewrite tallyOf_default.
  - rewrite List.length_app. simpl. lia.
Qed.

(** While no identifier has a majority the loop goes on: after the
    deliveries [pre] it stands at the tally of their Observed outcomes,
    in front of the rest of the generator. *)
Lemma forAwait_through n pre : forall rs g rest,
  yields g = pre ++ rest ->
  NoMajority n (rs ++ observed pre) ->
  exists g', yields g' = rest /\ doneAt g' = doneAt g /\
    forAwait n (tallyAfter rs) g = forAwait n (tallyAfter (rs ++ observed pre)) g'.
Proof.
  induction pre as [|[t v] pre IH]; intros rs g rest Hy Hno.
  - exists g. simpl. rewrite app_nil_r. auto.
  - destruct g as [t' v' g1|]; [|discriminate]. simpl in Hy.
    injection Hy as -> -> Hy. destruct v as [r|].
    + simpl observed in *. rewrite forAwait_observed.
      assert (Hlt : votes (timezone r) rs + 1 < majorityOf n).
      { specialize (Hno (timezone r)).
        rewrite votes_app in Hno.
        change (r :: observed pre) with ([r] ++ observed pre) in Hno.
        rewrite votes_app, votes_one, String.eqb_refl in Hno. lia. }
      destruct (Nat.leb_spec (majorityOf n) (votes (timezone r) rs + 1)); [lia|].
      destruct (IH (rs ++ [r]) g1 rest Hy) as (g' & Hy' & Hd & Heq).
      { now rewrite <- app_assoc. }
      exists g'. rewrite <- app_assoc in Heq. auto.
    + destruct (IH rs g1 rest Hy Hno) as (g' & Hy' & Hd & Heq).
      exists g'. auto.
Qed.

(** Either some delivery is the first to give an identifier its
    majority, or none does. *)
Lemma majority_cases n evs : forall rs,
  NoMajority n rs ->
  (exists pre t r post,
      evs = pre ++ (t, Some r) :: post /\
      NoMajority n (rs ++ observed pre) /\
      majorityOf n <= votes (timezone r) (rs ++ observed pre) + 1)
  \/ NoMajority n (rs ++ observed evs).
Proof.
  induction evs as [|[t [r|]] evs IH]; intros rs Hno.
  - right. simpl. now rewrite app_nil_r.
  - destruct (le_lt_dec (majorityOf n) (votes (timezone r) rs + 1)) as [Hge|Hlt].
    + left. exists [], t, r, evs. simpl. rewrite app_nil_r. auto.
    + assert (Hno' : NoMajority n (rs ++ [r])).
      { intros tz. rewrite votes_app, votes_one.
        destruct (String.eqb_spec (timezone r) tz) as [<-|_]; [lia|].
        specialize (Hno tz). lia. }
      destruct (IH _ Hno') as [(pre & t' & r' & post & -> & H1 & H2) | H].
      * left. exists ((t, Some r) :: pre), t', r', post. simpl.
        rewrite <- app_assoc in H1, H2. auto.
      * right. simpl. now rewrite <- app_assoc in H.
  - destruct (IH _ Hno) as [(pre & t' & r' & post & -> & H1 & H2) | H].
    + left. exists ((t, None) :: pre), t', r', post. auto.
    + right. exact H.
Qed.

Lemma tallyOf_nonempty rs : rs <> [] -> 0 < length (tallyOf rs).
Proof.
  destruct rs as [|r rs]; [congruence|]. intros _.
  assert (H : In (timezone r) (keys (tallyOf (r :: rs))))
    by (apply tallyOf_key_of_result; now left).
  destruct (tallyOf (r :: rs)); [destruct H | simpl; lia].
Qed.

End Loop.

(* ===================================================================== *)
(** ** The three ways a consensus call ends *)
(* ===================================================================== *)

Section Consensus.

Variable ps : list Promise.
Variable T : nat.

Let n := length ps.
Let gen := raceWithTimeout ps T.
Let evs := yields gen.

(** Early return on the first delivery that completes a majority. *)
Lemma consensus_early pre t r post :
  evs = pre ++ (t, Some r) :: post ->
  NoMajority n (observed pre) ->
  majorityOf n <= votes (timezone r) (observed pre) + 1 ->
  consensusOver ps T =
    Returns {| res_timezone := Some (timezone r);
               res_geo := Some (geo r);
               confidence := ratio (votes (timezone r) (observed pre) + 1) n;
               responseTime := t;
               sources := S (length (observed pre)) |}.
Proof.
  intros Hy Hno Hmaj. unfold consensusOver. fold n gen.
  change emptyTally with (tallyAfter []).
  destruct (forAwait_through n pre [] gen _ Hy Hno) as (g' & Hy' & _ & ->).
  destruct g' as [t' v' g1|]; [|discriminate]. simpl in Hy'.
  injection Hy' as -> -> _. simpl app. rewrite forAwait_observed.
  destruct (Nat.leb_spec (majorityOf n) (votes (timezone r) (observed pre) + 1));
    [reflexivity | lia].
Qed.

(** No majority and at least one Observed outcome: the best guess. *)
Lemma consensus_plurality :
  NoMajority n (observed evs) -> observed evs <> [] ->
  exists l1 r l2,
    observed evs = l1 ++ r :: l2 /\
    consensusOver ps T =
      Returns {| res_timezone := Some (timezone r);
                 res_geo := Some (geo r);
                 confidence := ratio (votes (timezone r) (observed evs)) n;
                 responseTime := doneAt gen;
                 sources := length (observed evs) |} /\
    (forall tz, votes tz (observed evs) <= votes (timezone r) (observed evs)) /\
    (forall r', In r' l1 ->
       votes (timezone r') (observed evs) < votes (timezone r) (observed evs)).
Proof.
  intros Hno Hne. unfold consensusOver. fold n gen.
  change emptyTally with (tallyAfter []).
  destruct (forAwait_through n evs [] gen [] (eq_sym (app_nil_r _)) Hno)
    as (g' & Hy' & Hd & ->).
  destruct g' as [|t']; [discriminate|]. simpl in Hd. subst t'. simpl app. simpl forAwait.
  pose proof (tallyOf_nonempty _ Hne) as Hlen.
  destruct (bestGuess_spec (tallyAfter (observed evs)) (tallyAfter_inv _) Hne)
    as (l1 & r & l2 & Hrs & Hbest & Hmax & Hfirst).
  simpl in Hrs, Hmax, Hfirst. exists l1, r, l2. rewrite Hbest. simpl.
  destruct (Nat.ltb_spec 0 (length (tallyOf (observed evs)))); [auto | lia].
Qed.

(** No Observed outcome at all: the call throws. *)
Lemma consensus_none : observed evs = [] -> consensusOver ps T = Throws AllFailed.
Proof.
  intros Hnone. unfold consensusOver. fold n gen.
  destruct ps as [|p ps'] eqn:Eps; [reflexivity|].
  assert (Hn : 0 < n) by (unfold n; simpl; lia).
  change emptyTally with (tallyAfter []).
  destruct (forAwait_through n evs [] gen [] (eq_sym (app_nil_r _)))
    as (g' & Hy' & Hd & ->).
  { rewrite Hnone. now apply NoMajority_nil. }
  destruct g' as [|t']; [discriminate|]. simpl app. rewrite Hnone. reflexivity.
Qed.

(** Every call ends in one of these three ways. *)
Lemma consensus_cases :
  (exists pre t r post,
      evs = pre ++ (t, Some r) :: post /\
      NoMajority n (observed pre) /\
      majorityOf n <= votes (timezone r) (observed pre) + 1 /\
      consensusOver ps T =
        Returns {| res_timezone := Some (timezone r);
                   res_geo := Some (geo r);
                   confidence := ratio (votes (timezone r) (observed pre) + 1) n;
                   responseTime := t;
                   sources := S (length (observed pre)) |})
  \/
  (NoMajority n (observed evs) /\
   exists l1 r l2,
      observed evs = l1 ++ r :: l2 /\
      consensusOver ps T =
        Returns {| res_timezone := Some (timezone r);
                   res_geo := Some (geo r);
                   confidence := ratio (votes (timezone r) (observed evs)) n;
                   responseTime := doneAt gen;
                   sources := length (observed evs) |} /\
      (forall tz, votes tz (observed evs) <= votes (timezone r) (observed evs)) /\
      (forall r', In r' l1 ->
         votes (timezone r') (observed evs) < votes (timezone r) (observed evs)))
  \/
  (observed evs = [] /\ consensusOver ps T = Throws AllFailed).
Proof.
  assert (Hdec : observed evs = [] \/ observed evs <> []).
  { destruct (observed evs); [now left | now right]. }
  destruct Hdec as [Hnil|Hne].
  - right; right. split; [exact Hnil | now apply consensus_none].
  - assert (Hn : 0 < n).
    { unfold n. destruct ps; [now contradiction Hne | simpl; lia]. }
    destruct (majority_cases n evs [] (NoMajority_nil n Hn))
      as [(pre & t & r & post & Hy & Hno & Hmaj) | Hno]; simpl in *.
    + left. exists pre, t, r, post. repeat split; auto.
      now apply (consensus_early pre t r post).
    + right; left. split; [exact Hno|].
      now apply consensus_plurality.
Qed.

End Consensus.

(* ===================================================================== *)
(** ** The generator *)
(* ===================================================================== *)

Section Generator.

Lemma raceFrom_yields T ps : forall now,
  yields (raceFrom now ps T) = deliver now (live T ps).
Proof.
  induction ps as [|p ps IH]; intros now; [reflexivity|].
  simpl. unfold raceTimeout, stops.
  destruct (Nat.leb_spec (settleTime p) T) as [Hle|Hgt].
  - destruct (Nat.ltb_spec T (settleTime p)); [lia|]. simpl.
    destruct p as [tp [v|msg]]; simpl in *.
    + now rewrite IH.
    + destruct (String.eqb msg "Total timeout"); simpl; [reflexivity|].
      now rewrite IH.
  - destruct (Nat.ltb_spec T (settleTime p)); [|lia]. reflexivity.
Qed.

Lemma live_prefix T ps : exists rest, ps = live T ps ++ rest.
Proof.
  induction ps as [|p ps [rest IH]]; simpl.
  - now exists [].
  - destruct (stops T p).
    + now exists (p :: ps).
    + exists rest. simpl. now f_equal.
Qed.

Lemma live_length T ps : length (live T ps) <= length ps.
Proof.
  destruct (live_prefix T ps) as [rest H]. rewrite H at 2.
  rewrite List.length_app. lia.
Qed.

Lemma live_in_time T ps p : In p (live T ps) -> settleTime p <= T.
Proof.
  induction ps as [|q ps IH]; simpl; [tauto|].
  destruct (stops T q) eqn:E; simpl; [tauto|].
  intros [<-|Hin]; [|auto].
  unfold stops in E. apply orb_false_elim in E as [E _].
  now apply Nat.ltb_ge in E.
Qed.

Lemma deliver_length now ps : length (deliver now ps) = length ps.
Proof. revert now. induction ps; intros now; simpl; auto. Qed.

Lemma deliver_outcomes now ps : map snd (deliver now ps) = map outcomeOf ps.
Proof. revert now. induction ps as [|p ps IH]; intros now; simpl; [|rewrite IH]; auto. Qed.

(** The instant of the [i]-th delivery: the latest settling among the
    promises up to the [i]-th (and not before the start [now]). *)
Lemma deliver_time ps : forall now i t v,
  nth_error (deliver now ps) i = Some (t, v) ->
  t = Nat.max now (list_max (map settleTime (firstn (S i) ps))).
Proof.
  induction ps as [|p ps IH]; intros now i t v; [now destruct i|].
  destruct i as [|i]; simpl.
  - intros [= <- _]. destruct ps; simpl; lia.
  - intros H. apply IH in H. rewrite H. simpl firstn.
    destruct ps as [|q ps]; [simpl; lia|]. simpl. lia.
Qed.

Lemma yields_length T ps now : length (yields (raceFrom now ps T)) <= length ps.
Proof. rewrite raceFrom_yields, deliver_length. apply live_length. Qed.


(** No delivery happens after the total timeout. *)
Lemma deliver_before T ps : forall now,
  (forall p, In p ps -> settleTime p <= T) ->
  now <= T ->
  Forall (fun ev => fst ev <= T) (deliver now ps).
Proof.
  induction ps as [|p ps IH]; intros now Hps Hnow; simpl; [constructor|].
  assert (Hp : settleTime p <= T) by (apply Hps; now left).
  constructor; [simpl; lia|].
  apply IH; [intros q Hq; apply Hps; now right | lia].
Qed.

End Generator.

Section Consumed.

Lemma consumedBy_through n pre : forall rs rest,
  NoMajority n (rs ++ observed pre) ->
  consumedBy n rs (pre ++ rest) = pre ++ consumedBy n (rs ++ observed pre) rest.
Proof.
  induction pre as [|[t [r|]] pre IH]; intros rs rest Hno; simpl.
  - now rewrite app_nil_r.
  - simpl in Hno.
    assert (Hlt : votes (timezone r) rs + 1 < majorityOf n).
    { specialize (Hno (timezone r)). rewrite votes_app in Hno.
      change (r :: observed pre) with ([r] ++ observed pre) in Hno.
      rewrite votes_app, votes_one, String.eqb_refl in Hno. lia. }
    destruct (Nat.leb_spec (majorityOf n) (votes (timezone r) rs + 1)); [lia|].
    rewrite IH by (now rewrite <- app_assoc). now rewrite <- app_assoc.
  - now rewrite IH.
Qed.

Lemma consumed_early ps T pre t r post :
  yields (raceWithTimeout ps T) = pre ++ (t, Some r) :: post ->
  NoMajority (length ps) (observed pre) ->
  majorityOf (length ps) <= votes (timezone r) (observed pre) + 1 ->
  consumed ps T = pre ++ [(t, Some r)].
Proof.
  intros Hy Hno Hmaj. unfold consumed. rewrite Hy.
  rewrite consumedBy_through by exact Hno. simpl.
  destruct (Nat.leb_spec (majorityOf (length ps)) (votes (timezone r) (observed pre) + 1));
    [reflexivity | lia].
Qed.

Lemma consumed_all ps T :
  NoMajority (length ps) (observed (yields (raceWithTimeout ps T))) ->
  consumed ps T = yields (raceWithTimeout ps T).
Proof.
  intros Hno. unfold consumed.
  rewrite <- (app_nil_r (yields (raceWithTimeout ps T))) at 1.
  rewrite consumedBy_through by exact Hno. simpl. apply app_nil_r.
Qed.

Lemma consumed_prefix ps T :
  exists rest, yields (raceWithTimeout ps T) = consumed ps T ++ rest.
Proof.
  unfold consumed. generalize (@nil ServiceResult) as rs.
  induction (yields (raceWithTimeout ps T)) as [|[t [r|]] evs IH]; intros rs; simpl.
  - now exists [].
  - destruct (majorityOf (length ps) <=? votes (timezone r) rs + 1).
    + now exists evs.
    + destruct (IH (rs ++ [r])) as [rest Hr]. exists rest. simpl. now f_equal.
  - destruct (IH rs) as [rest Hr]. exists rest. simpl. now f_equal.
Qed.

Lemma observed_length evs : length (observed evs) <= length evs.
Proof. induction evs as [|[t [r|]] evs IH]; simpl; lia. Qed.

Lemma consumed_length ps T : length (observed (consumed ps T)) <= length ps.
Proof.
  destruct (consumed_prefix ps T) as [rest Hr].
  pose proof (yields_length T ps 0) as Hl. fold (raceWithTimeout ps T) in Hl.
  rewrite Hr, List.length_app in Hl.
  pose proof (observed_length (consumed ps T)). lia.
Qed.

Lemma ratio_pos c n : 0 < c -> (0 < ratio c n)%Q.
Proof. intros Hc. unfold ratio, Qlt. simpl. rewrite Z.mul_0_l, Z.mul_1_r. lia. Qed.

Lemma ratio_le_1 c n : c <= n -> (ratio c n <= 1)%Q.
Proof.
  intros Hc. unfold ratio, Qle. simpl.
  rewrite Z.mul_1_r, Z.mul_1_l.
  destruct n as [|n]; [replace c with 0 by lia; simpl; lia|].
  assert (Z.pos (Pos.of_nat (S n)) = Z.of_nat (S n)) as ->.
  { rewrite <- Znat.positive_nat_Z. f_equal. apply Nat2Pos.id. discriminate. }
  lia.
Qed.

Lemma ratio_half c n : 0 < n -> majorityOf n <= c -> (1 # 2 <= ratio c n)%Q.
Proof.
  intros Hpos Hc. unfold ratio, Qle. simpl.
  assert (Hn : n <= 2 * majorityOf n).
  { unfold majorityOf.
    pose proof (Nat.div_mod_eq (n + 1) 2).
    pose proof (Nat.mod_upper_bound (n + 1) 2). lia. }
  rewrite Z.mul_1_l.
  destruct n as [|n]; [lia|].
  assert (Z.pos (Pos.of_nat (S n)) = Z.of_nat (S n)) as ->.
  { rewrite <- Znat.positive_nat_Z. f_equal. apply Nat2Pos.id. discriminate. }
  lia.
Qed.

End Consumed.

(* ===================================================================== *)
(** ** Consensus mode: majority, best guess, failure *)
(* ===================================================================== *)

Lemma noMajorityb_sound n rs : noMajorityb n rs = true -> NoMajority n rs.
Proof.
  unfold noMajorityb. intros H. apply andb_prop in H as [Hpos Hall].
  apply Nat.ltb_lt in Hpos. rewrite forallb_forall in Hall.
  intros tz. destruct (Nat.eq_dec (votes tz rs) 0) as [E|E]; [lia|].
  assert (Hv : 0 < votes tz rs) by lia.
  apply votes_pos_in in Hv as (r & Hin & <-).
  apply Nat.ltb_lt. now apply Hall.
Qed.

(** C1. When a delivery gives its identifier a majority of the registered
    services, no identifier having had one before, the call returns on
    that delivery: the identifier and geo of that outcome, confidence
    count / N (at least one half), the instant of that delivery as
    response time; the loop has consumed nothing after it. *)
Theorem consensus_returns_on_majority ps T pre t r post :
  yields (raceWithTimeout ps T) = pre ++ (t, Some r) :: post ->
  NoMajority (length ps) (observed pre) ->
  majorityOf (length ps) <= votes (timezone r) (observed pre) + 1 ->
  consensusOver ps T =
    Returns {| res_timezone := Some (timezone r);
               res_geo := Some (geo r);
               confidence := ratio (votes (timezone r) (observed pre) + 1) (length ps);
               responseTime := t;
               sources := S (length (observed pre)) |}
  /\ consumed ps T = pre ++ [(t, Some r)]
  /\ (1 # 2 <= ratio (votes (timezone r) (observed pre) + 1) (length ps))%Q.
Proof.
  intros Hy Hno Hmaj. split; [|split].
  - now apply (consensus_early ps T pre t r post).
  - now apply (consumed_early ps T pre t r post).
  - apply ratio_half; [|exact Hmaj].
    destruct ps; [now destruct pre | simpl; lia].
Qed.

Lemma consensus_returns_on_majority_witness :
  consensusOver londonFirst 800 =
    Returns {| res_timezone := Some "Europe/London";
               res_geo := Some (geoOf "Leeds");
               confidence := 3 # 5;
               responseTime := 150;
               sources := 3 |}
  /\ consumed londonFirst 800 =
       [ (100, Some (answered "Europe/London" "London" "ipapi.co"));
         (150, Some (answered "Europe/London" "London" "ipwho.is"));
         (150, Some (answered "Europe/London" "Leeds" "ip-api.com")) ]
  /\ (1 # 2 <= 3 # 5)%Q.
Proof.
  apply (consensus_returns_on_majority londonFirst 800
           [ (100, Some (answered "Europe/London" "London" "ipapi.co"));
             (150, Some (answered "Europe/London" "London" "ipwho.is")) ]
           150 (answered "Europe/London" "Leeds" "ip-api.com")
           [ (400, Some (answered "Europe/Paris" "Paris" "reallyfreegeoip.org"));
             (490, Some (answered "Europe/Paris" "Paris" "freeipapi.com")) ]).
  - reflexivity.
  - apply noMajorityb_sound. reflexivity.
  - vm_compute. lia.
Defined.




(** The scenario of the tie, evaluated: Tokyo, seen first, with 2/5. *)
Example tokyoSeoul_result :
  consensusOver tokyoSeoul 800 =
    Returns {| res_timezone := Some "Asia/Tokyo";
               res_geo := Some (geoOf "Tokyo");
               confidence := 2 # 5;
               responseTime := 500;
               sources := 4 |}.
Proof. reflexivity. Qed.

Lemma observed_split_nonempty pre t r post :
  observed (pre ++ (t, Some r) :: post) <> [].
Proof.
  rewrite observed_app. simpl. intros H.
  apply app_eq_nil in H as [_ H]. discriminate.
Qed.

Lemma live_all_late T ps :
  (forall p, In p ps -> T < settleTime p) -> live T ps = [].
Proof.
  destruct ps as [|p ps]; [reflexivity|]. intros H. simpl. unfold stops.
  destruct (Nat.ltb_spec T (settleTime p)) as [_|Hlt]; [reflexivity|].
  specialize (H p (or_introl eq_refl)). lia.
Qed.

Lemma live_all T ps :
  (forall p, In p ps -> stops T p = false) -> live T ps = ps.
Proof.
  induction ps as [|p ps IH]; intros H; simpl; [reflexivity|].
  rewrite (H p (or_introl eq_refl)). f_equal.
  apply IH. intros q Hq. apply H. now right.
Qed.

Lemma observed_In r evs : In r (observed evs) <-> In (Some r) (map snd evs).
Proof.
  induction evs as [|[t [r'|]] evs IH]; simpl.
  - tauto.
  - rewrite IH. split; intros [H|H]; auto; left; congruence.
  - rewrite IH. split; [auto | intros [H|H]; [discriminate | auto]].
Qed.

Lemma observed_same_outcomes evs1 : forall evs2,
  map snd evs1 = map snd evs2 -> observed evs1 = observed evs2.
Proof.
  induction evs1 as [|[t [r|]] evs1 IH]; intros [|[t' [r'|]] evs2]; simpl;
    try discriminate; auto.
  - intros [= -> H]. f_equal. now apply IH.
  - intros [= H]. now apply IH.
Qed.

(** What is delivered was produced; and all of it is delivered when no
    service stops the loop. *)
Lemma delivered_produced ps T :
  (forall r, In r (observed (yields (raceWithTimeout ps T))) -> In r (produced ps T)) /\
  ((forall p, In p ps -> stops T p = false) ->
   observed (yields (raceWithTimeout ps T)) = produced ps T).
Proof.
  unfold raceWithTimeout, produced. rewrite raceFrom_yields. split.
  - intros r Hr. apply observed_In in Hr. rewrite deliver_outcomes in Hr.
    apply in_map_iff in Hr as (p & Ho & Hp).
    apply observed_In. rewrite map_map. simpl.
    apply in_map_iff. exists p. split; [exact Ho|].
    apply filter_In. split.
    + destruct (live_prefix T ps) as [rest Hrest]. rewrite Hrest.
      apply in_or_app. now left.
    + apply Nat.leb_le. now apply (live_in_time T ps).
  - intros Hall. rewrite (live_all T ps Hall).
    apply observed_same_outcomes. rewrite deliver_outcomes, map_map. simpl.
    f_equal. symmetry. apply forallb_filter_id. apply forallb_forall.
    intros p Hp. apply Nat.leb_le. specialize (Hall p Hp).
    unfold stops in Hall. apply orb_false_elim in Hall as [Hall _].
    now apply Nat.ltb_ge in Hall.
Qed.

(** With no service registered there is nothing to divide by: the call
    throws. *)
Example consensusOver_no_service T : consensusOver [] T = Throws AllFailed.
Proof. reflexivity. Qed.

Lemma consensusOver_only_error ps T message :
  consensusOver ps T = Throws message -> message = AllFailed.
Proof.
  intros E.
  destruct (consensus_cases ps T)
    as [(pre & t & r & post & _ & _ & _ & Hr)
       | [(_ & l1 & r & l2 & _ & Hr & _) | (_ & Hr)]];
    rewrite E in Hr; congruence.
Qed.

Lemma consensusOver_not_pending ps T : consensusOver ps T <> Pending.
Proof.
  intros E.
  destruct (consensus_cases ps T)
    as [(pre & t & r & post & _ & _ & _ & Hr)
       | [(_ & l1 & r & l2 & _ & Hr & _) | (_ & Hr)]];
    rewrite E in Hr; discriminate.
Qed.

(** C3, as stated, fails: the first registered service hangs past the
    total timeout and the second has answered at 10; that Observed
    outcome was produced during the call, yet the generator stops on the
    first service and the call throws. *)
Lemma produced_outcome_counterexample : ~ failsIffNothingProducedAsStated hangingFirst 800.
Proof.
  unfold failsIffNothingProducedAsStated. intros [H _].
  specialize (H eq_refl). vm_compute in H. discriminate H.
Qed.

(** C3, amended. The call throws exactly when the generator delivers no
    Observed outcome, and then with the one error of the function; with
    an Observed outcome delivered it returns a result.  In particular it
    throws that error when every promise settles after the total
    timeout, the generator yielding nothing.  What is delivered was
    produced by a service, and everything produced is delivered when no
    service overruns the total timeout; but an outcome produced behind a
    service that overruns it is not delivered. *)
Theorem consensus_fails_iff_nothing_observed ps T :
  let rs := observed (yields (raceWithTimeout ps T)) in
  (consensusOver ps T = Throws AllFailed <-> rs = []) /\
  (forall msg, consensusOver ps T = Throws msg -> msg = AllFailed) /\
  consensusOver ps T <> Pending /\
  (rs <> [] -> exists res, consensusOver ps T = Returns res) /\
  ((forall p, In p ps -> T < settleTime p) ->
     yields (raceWithTimeout ps T) = [] /\ consensusOver ps T = Throws AllFailed) /\
  (forall r, In r rs -> In r (produced ps T)) /\
  ((forall p, In p ps -> stops T p = false) ->
     rs = produced ps T /\
     (consensusOver ps T = Throws AllFailed <-> produced ps T = [])).
Proof.
  intros rs. subst rs.
  assert (Hlate : (forall p, In p ps -> T < settleTime p) ->
                  yields (raceWithTimeout ps T) = []).
  { intros H. unfold raceWithTimeout. rewrite raceFrom_yields.
    now rewrite live_all_late. }
  destruct (delivered_produced ps T) as [Hsub Hall].
  assert (Hiff : consensusOver ps T = Throws AllFailed <->
                 observed (yields (raceWithTimeout ps T)) = []).
  { destruct (consensus_cases ps T)
      as [(pre & t & r & post & Hy & _ & _ & Hres)
         | [(_ & l1 & r & l2 & Hrs & Hres & _) | (Hnil & Hres)]].
    - rewrite Hres. split; [discriminate|]. intros E. exfalso.
      apply (observed_split_nonempty pre t r post). now rewrite <- Hy.
    - rewrite Hres. split; [discriminate|]. intros E.
      rewrite E in Hrs. now destruct l1.
    - rewrite Hres. tauto. }
  split; [exact Hiff|].
  split; [apply consensusOver_only_error|].
  split; [apply consensusOver_not_pending|].
  split.
  { intros Hne.
    destruct (consensus_cases ps T)
      as [(pre & t & r & post & _ & _ & _ & Hres)
         | [(_ & l1 & r & l2 & _ & Hres & _) | (Hnil & _)]]; eauto.
    contradiction. }
  split.
  { intros Hl. split; [now apply Hlate|]. apply Hiff. now rewrite (Hlate Hl). }
  split; [exact Hsub|].
  intros Hno. split; [now apply Hall|]. now rewrite <- (Hall Hno).
Qed.

Lemma consensus_fails_iff_nothing_observed_witness :
  yields (raceWithTimeout allLate 800) = [] /\
  consensusOver allLate 800 = Throws AllFailed.
Proof.
  destruct (consensus_fails_iff_nothing_observed allLate 800) as (_ & _ & _ & _ & H & _).
  apply H. intros p [<-|[<-|[]]]; simpl; lia.
Defined.

(** *** With a service timeout below the total timeout *)

(** A promise made by [fetchFromService] never rejects and settles by the
    service timeout. *)
Lemma fetchFromService_settles name net timeout :
  settleTime (fetchFromService name net timeout) <= timeout /\
  settled (fetchFromService name net timeout) =
    Fulfilled (outcomeOf (fetchFromService name net timeout)).
Proof.
  unfold fetchFromService, outcomeOf.
  destruct (Nat.leb_spec timeout (latency net)); simpl; split; auto; lia.
Qed.

(** Then the total timeout cuts nothing off: the loop is offered the
    outcome of every registered service. *)
Lemma startAll_all_delivered network timeout T :
  timeout < T ->
  map snd (yields (raceWithTimeout (startAll network timeout) T)) =
  map (fun name => outcomeOf (fetchFromService name (network name) timeout))
      GEOIP_SERVICES.
Proof.
  intros Hlt. unfold raceWithTimeout.
  rewrite raceFrom_yields, deliver_outcomes, live_all.
  - unfold startAll. now rewrite map_map.
  - intros p Hin. unfold startAll in Hin.
    apply in_map_iff in Hin as (name & <- & _).
    destruct (fetchFromService_settles name (network name) timeout) as [Ht Hs].
    unfold stops. rewrite Hs.
    destruct (Nat.ltb_spec T (settleTime (fetchFromService name (network name) timeout)));
      [lia | reflexivity].
Qed.

Lemma observed_nil evs : observed evs = [] <-> Forall (fun v => v = None) (map snd evs).
Proof.
  induction evs as [|[t [r|]] evs IH]; simpl.
  - split; auto.
  - split; [discriminate | intros H; inversion H; discriminate].
  - rewrite IH. split; [intros H; now constructor | intros H; now inversion H].
Qed.

(** And the call throws exactly when every service ends Absent. *)
Lemma getTimezoneByConsensus_fails_iff network timeout T :
  timeout < T ->
  getTimezoneByConsensus network timeout T = Throws AllFailed <->
  forall name, In name GEOIP_SERVICES ->
    outcomeOf (fetchFromService name (network name) timeout) = None.
Proof.
  intros Hlt. unfold getTimezoneByConsensus.
  destruct (consensus_cases (startAll network timeout) T)
    as [(pre & t & r & post & Hy & _ & _ & Hres)
       | [(_ & l1 & r & l2 & Hrs & Hres & _) | (Hnil & Hres)]].
  - rewrite Hres. split; [discriminate|]. intros Hall. exfalso.
    apply (observed_split_nonempty pre t r post). rewrite <- Hy.
    apply observed_nil. rewrite (startAll_all_delivered _ _ _ Hlt).
    apply List.Forall_forall. intros v Hv.
    apply in_map_iff in Hv as (name & <- & Hin). now apply Hall.
  - rewrite Hres. split; [discriminate|]. intros Hall. exfalso.
    assert (Hobs : observed (yields (raceWithTimeout (startAll network timeout) T)) = []).
    { apply observed_nil. rewrite (startAll_all_delivered _ _ _ Hlt).
      apply List.Forall_forall. intros v Hv.
      apply in_map_iff in Hv as (name & <- & Hin). now apply Hall. }
    rewrite Hobs in Hrs. now destruct l1.
  - rewrite Hres. split; [|reflexivity]. intros _ name Hin.
    apply observed_nil in Hnil. rewrite (startAll_all_delivered _ _ _ Hlt) in Hnil.
    rewrite List.Forall_forall in Hnil. apply Hnil.
    apply in_map_iff. now exists name.
Qed.

(** Five services, the first failing at once, the others agreeing. *)
Example flakyNetwork_consensus :
  getTimezoneByConsensus flakyNetwork 500 800 =
    Returns {| res_timezone := Some "Europe/London";
               res_geo := Some (geoOf "London");
               confidence := 3 # 5;
               responseTime := 200;
               sources := 3 |}.
Proof. reflexivity. Qed.

(* ===================================================================== *)
(** ** First-success mode *)
(* ===================================================================== *)

Lemma promiseRace_In l q : promiseRace l = Some q -> In q l.
Proof.
  revert q. induction l as [|x l IH]; intros q; simpl; [discriminate|].
  destruct (promiseRace l) as [q'|].
  - destruct (fst q' <? fst x); intros [= <-]; auto.
  - intros [= <-]. now left.
Qed.

(** The race is won by the promise that settles strictly first. *)
Lemma promiseRace_strict_min l1 x l2 :
  (forall y, In y (l1 ++ l2) -> fst x < fst y) ->
  promiseRace (l1 ++ x :: l2) = Some x.
Proof.
  induction l1 as [|y l1 IH]; simpl; intros Hmin.
  - destruct (promiseRace l2) as [q|] eqn:E; [|reflexivity].
    apply promiseRace_In in E. apply Hmin in E.
    destruct (Nat.ltb_spec (fst q) (fst x)); [lia | reflexivity].
  - rewrite IH by (intros z Hz; apply Hmin; now right).
    specialize (Hmin y (or_introl eq_refl)).
    destruct (Nat.ltb_spec (fst x) (fst y)); [reflexivity | lia].
Qed.

(** X13. What the code does: a service that answers [null] before every
    other service settles makes the call throw, whatever the others
    answer. *)
Lemma firstOver_early_absent ps1 p ps2 :
  settled p = Fulfilled None ->
  (forall q, In q (ps1 ++ ps2) -> settleTime p < settleTime q) ->
  firstOver (ps1 ++ p :: ps2) = Throws "Service failed".
Proof.
  intros Hp Hmin. unfold firstOver. rewrite map_app. simpl.
  rewrite promiseRace_strict_min.
  - unfold orFail. now rewrite Hp.
  - intros y Hy. rewrite <- map_app in Hy.
    apply in_map_iff in Hy as (q & <- & Hq). simpl. now apply Hmin.
Qed.

(** C4, the code at the failing input: the first service fails at once,
    the second has an Observed outcome later, and the call throws
    ["Service failed"] instead of returning that outcome. *)
Theorem first_success_fails_on_early_absent :
  firstOver failsThenAnswers = Throws "Service failed" /\
  earliestObserved failsThenAnswers =
    Some (200, answered "Europe/London" "London" "ipwho.is") /\
  getTimezoneFirst flakyNetwork 500 = Throws "Service failed".
Proof. repeat split; reflexivity. Qed.

(* ===================================================================== *)
(** ** The order and the instants of the deliveries *)
(* ===================================================================== *)

(** C5, as stated, fails: the service registered first settles at 100,
    the second at 1; the second outcome is delivered at 100, after the
    first, not at 1 and before it. *)
Lemma completion_order_counterexample : ~ completionOrderAsStated slowThenFast 800.
Proof. unfold completionOrderAsStated. vm_compute. discriminate. Qed.

Example slowThenFast_deliveries :
  yields (raceWithTimeout slowThenFast 800) =
    [ (100, Some (answered "Europe/London" "London" "ipapi.co"));
      (100, Some (answered "Europe/Paris" "Paris" "ipwho.is")) ].
Proof. reflexivity. Qed.

(** C5, amended. The generator yields the outcomes in registration order:
    those of the promises before the first that settles after the total
    timeout, one per promise.  The [i]-th outcome is delivered when the
    [i]-th promise and all those registered before it have settled,
    which is no later than the total timeout. *)
Theorem raceWithTimeout_registration_order ps T :
  let evs := yields (raceWithTimeout ps T) in
  (exists rest, ps = live T ps ++ rest) /\
  map snd evs = map outcomeOf (live T ps) /\
  (forall i t v, nth_error evs i = Some (t, v) ->
     t = list_max (map settleTime (firstn (S i) ps))) /\
  Forall (fun ev => fst ev <= T) evs.
Proof.
  intros evs. subst evs. unfold raceWithTimeout. rewrite raceFrom_yields.
  split; [apply live_prefix|]. split; [apply deliver_outcomes|]. split.
  - intros i t v Hnth.
    assert (Hi : i < length (live T ps)).
    { rewrite <- (deliver_length 0). apply nth_error_Some. congruence. }
    apply deliver_time in Hnth. simpl in Hnth. rewrite Hnth.
    destruct (live_prefix T ps) as [rest Hps]. rewrite Hps at 2.
    rewrite firstn_app.
    replace (S i - length (live T ps)) with 0 by lia.
    simpl firstn at 2. now rewrite app_nil_r.
  - apply deliver_before; [apply live_in_time | lia].
Qed.

(** A promise that settles in the very instant of the total timeout is
    still delivered, with those already settled behind it. *)
Example tie_goes_to_the_promise :
  yields (raceWithTimeout [ answers 800 "Europe/London" "London" "ipapi.co";
                            answers 20 "Europe/Paris" "Paris" "ipwho.is";
                            answers 801 "Europe/Paris" "Paris" "ip-api.com" ] 800) =
    [ (800, Some (answered "Europe/London" "London" "ipapi.co"));
      (800, Some (answered "Europe/Paris" "Paris" "ipwho.is")) ].
Proof. reflexivity. Qed.

(** A consequence: an answer that came in time, registered behind a
    service that hangs past the deadline, is never delivered. *)
Example answer_behind_hanging_service_is_lost :
  yields (raceWithTimeout hangingFirst 800) = [] /\
  consensusOver hangingFirst 800 = Throws AllFailed /\
  earliestObserved hangingFirst = Some (10, answered "Europe/London" "London" "ipwho.is").
Proof. repeat split; reflexivity. Qed.

(* ===================================================================== *)
(** ** Confidence, sources and geo of the result *)
(* ===================================================================== *)

Lemma ratio_div c n :
  0 < n -> (ratio c n == inject_Z (Z.of_nat c) / inject_Z (Z.of_nat n))%Q.
Proof.
  intros Hn. unfold ratio. rewrite Qmake_Qdiv.
  replace (Z.pos (Pos.of_nat n)) with (Z.of_nat n); [reflexivity|].
  destruct n as [|n]; [lia|].
  rewrite <- Znat.positive_nat_Z. f_equal. symmetry. apply Nat2Pos.id. discriminate.
Qed.

(** A result comes with its identifier [tz], the votes [v] for [tz] among
    the consumed deliveries, and the way the loop ended. *)
Lemma consensus_result ps T res :
  consensusOver ps T = Returns res ->
  let evs := yields (raceWithTimeout ps T) in
  let n := length ps in
  (exists pre t r post,
      evs = pre ++ (t, Some r) :: post /\
      NoMajority n (observed pre) /\
      majorityOf n <= votes (timezone r) (observed pre) + 1 /\
      consumed ps T = pre ++ [(t, Some r)] /\
      res = {| res_timezone := Some (timezone r);
               res_geo := Some (geo r);
               confidence := ratio (votes (timezone r) (observed (consumed ps T))) n;
               responseTime := t;
               sources := length (observed (consumed ps T)) |})
  \/
  (NoMajority n (observed evs) /\ consumed ps T = evs /\
   exists l1 r l2,
      observed evs = l1 ++ r :: l2 /\
      (forall r', In r' l1 -> timezone r' <> timezone r) /\
      res = {| res_timezone := Some (timezone r);
               res_geo := Some (geo r);
               confidence := ratio (votes (timezone r) (observed (consumed ps T))) n;
               responseTime := doneAt (raceWithTimeout ps T);
               sources := length (observed (consumed ps T)) |}).
Proof.
  intros Hres evs n. subst evs n.
  destruct (consensus_cases ps T)
    as [(pre & t & r & post & Hy & Hno & Hmaj & Hr)
       | [(Hno & l1 & r & l2 & Hrs & Hr & _ & Hfirst) | (_ & Hr)]].
  - left. exists pre, t, r, post.
    pose proof (consumed_early ps T pre t r post Hy Hno Hmaj) as Hc.
    repeat split; auto.
    rewrite Hres in Hr. injection Hr as ->.
    rewrite Hc, observed_app, votes_app, List.length_app. simpl.
    rewrite votes_one, String.eqb_refl. f_equal. lia.
  - right. pose proof (consumed_all ps T Hno) as Hc.
    repeat split; auto. exists l1, r, l2. repeat split; auto.
    + intros r' Hin E. apply Hfirst in Hin. rewrite E in Hin. lia.
    + rewrite Hres in Hr. injection Hr as ->. now rewrite Hc.
  - rewrite Hres in Hr. discriminate.
Qed.

(** C6. The confidence of a result is the number of votes for the
    returned identifier, among the outcomes the loop consumed, divided by
    the number of registered services; it is positive and at most 1. *)
Theorem confidence_is_votes_over_registered ps T res :
  consensusOver ps T = Returns res ->
  exists tz,
    res_timezone res = Some tz /\
    let v := votes tz (observed (consumed ps T)) in
    confidence res = ratio v (length ps) /\
    (confidence res == inject_Z (Z.of_nat v) / inject_Z (Z.of_nat (length ps)))%Q /\
    0 < v <= length ps /\
    (0 < confidence res)%Q /\ (confidence res <= 1)%Q.
Proof.
  intros Hres.
  assert (Hbound : forall tz, votes tz (observed (consumed ps T)) <= length ps).
  { intros tz. etransitivity; [apply votes_le_length | apply consumed_length]. }
  assert (Hgoal : forall r,
            In r (observed (consumed ps T)) ->
            res_timezone res = Some (timezone r) ->
            confidence res =
              ratio (votes (timezone r) (observed (consumed ps T))) (length ps) ->
            exists tz,
              res_timezone res = Some tz /\
              let v := votes tz (observed (consumed ps T)) in
              confidence res = ratio v (length ps) /\
              (confidence res == inject_Z (Z.of_nat v) / inject_Z (Z.of_nat (length ps)))%Q /\
              0 < v <= length ps /\
              (0 < confidence res)%Q /\ (confidence res <= 1)%Q).
  { intros r Hin Htz Hconf. exists (timezone r). split; [exact Htz|]. simpl.
    assert (Hv : 0 < votes (timezone r) (observed (consumed ps T)))
      by (apply votes_pos_in; eauto).
    specialize (Hbound (timezone r)).
    split; [exact Hconf|]. rewrite Hconf.
    split; [apply ratio_div; lia|]. split; [lia|].
    split; [now apply ratio_pos | now apply ratio_le_1]. }
  destruct (consensus_result ps T res Hres)
    as [(pre & t & r & post & _ & _ & _ & Hc & ->)
       | (_ & Hc & l1 & r & l2 & Hrs & _ & ->)].
  - apply (Hgoal r); [|reflexivity|reflexivity].
    rewrite Hc, observed_app. apply in_or_app. right. now left.
  - apply (Hgoal r); [|reflexivity|reflexivity].
    rewrite Hc, Hrs. apply in_or_app. right. now left.
Qed.

Lemma confidence_is_votes_over_registered_witness :
  exists tz,
    Some "Europe/London" = Some tz /\
    let v := votes tz (observed (consumed londonFirst 800)) in
    3 # 5 = ratio v 5 /\
    (3 # 5 == inject_Z (Z.of_nat v) / inject_Z 5)%Q /\
    0 < v <= 5 /\
    (0 < 3 # 5)%Q /\ (3 # 5 <= 1)%Q.
Proof.
  apply (confidence_is_votes_over_registered londonFirst 800
           {| res_timezone := Some "Europe/London";
              res_geo := Some (geoOf "Leeds");
              confidence := 3 # 5;
              responseTime := 150;
              sources := 3 |}).
  reflexivity.
Defined.

(** C7, as stated, fails: five services settle in time, three of them
    with [null]; the loop consumes the five outcomes and [sources] is 2. *)
Lemma sources_counterexample : ~ sourcesAsStated mostlySilent 800.
Proof.
  unfold sourcesAsStated. intros H.
  specialize (H _ eq_refl). vm_compute in H. discriminate H.
Qed.

(** C7, amended. An Absent outcome changes nothing in the tally, neither
    a count of votes nor the counter behind [sources]: the loop goes on as
    if it had not been delivered.  [sources] is the number of Observed
    outcomes among those the loop consumed. *)
Theorem sources_counts_observed_outcomes ps T res :
  consensusOver ps T = Returns res ->
  sources res = length (observed (consumed ps T)) /\
  (forall n st t rest, forAwait n st (Yield t None rest) = forAwait n st rest).
Proof.
  intros Hres. split; [|reflexivity].
  destruct (consensus_result ps T res Hres)
    as [(pre & t & r & post & _ & _ & _ & _ & ->)
       | (_ & _ & l1 & r & l2 & _ & _ & ->)]; reflexivity.
Qed.

Lemma sources_counts_observed_outcomes_witness :
  2 = length (observed (consumed mostlySilent 800)) /\
  (forall n st t rest, forAwait n st (Yield t None rest) = forAwait n st rest).
Proof.
  apply (sources_counts_observed_outcomes mostlySilent 800
           {| res_timezone := Some "Europe/London";
              res_geo := Some (geoOf "London");
              confidence := 1 # 5;
              responseTime := 50;
              sources := 2 |}).
  reflexivity.
Defined.

(** C8, as stated, fails: of three services the first two name London,
    with geo London then Leeds; the second completes the majority and the
    result carries its geo, Leeds, not that of the first seen. *)
Lemma first_seen_geo_counterexample : ~ geoAsStated twoLondons 800.
Proof.
  unfold geoAsStated. intros H.
  destruct (H _ eq_refl) as (tz & Htz & Hgeo).
  vm_compute in Htz. injection Htz as <-.
  vm_compute in Hgeo. discriminate Hgeo.
Qed.

(** C8, amended. When the loop ends with no majority, the geo of the
    result is that of the first Observed outcome that names the returned
    identifier.  When the call returns on a majority, the geo is that of
    the outcome that completed it, the last consumed. *)
Theorem geo_of_result ps T res :
  consensusOver ps T = Returns res ->
  exists tz,
    res_timezone res = Some tz /\
    ((NoMajority (length ps) (observed (yields (raceWithTimeout ps T))) /\
      res_geo res = firstSeenGeo tz (observed (yields (raceWithTimeout ps T))))
     \/
     (exists t r,
        last (consumed ps T) = Some (t, Some r) /\ timezone r = tz /\
        majorityOf (length ps) <= votes tz (observed (consumed ps T)) /\
        res_geo res = Some (geo r))).
Proof.
  intros Hres.
  destruct (consensus_result ps T res Hres)
    as [(pre & t & r & post & _ & _ & Hmaj & Hc & ->)
       | (Hno & _ & l1 & r & l2 & Hrs & Hfirst & ->)].
  - exists (timezone r). split; [reflexivity|]. right. exists t, r.
    rewrite Hc. split; [apply last_snoc|]. split; [reflexivity|].
    split; [|reflexivity].
    rewrite observed_app, votes_app. simpl. rewrite votes_one, String.eqb_refl. lia.
  - exists (timezone r). split; [reflexivity|]. left. split; [exact Hno|].
    simpl. unfold firstSeenGeo. rewrite Hrs.
    now rewrite (find_first (timezone r) l1 r l2 eq_refl Hfirst).
Qed.

Lemma geo_of_result_witness :
  exists tz,
    Some "Europe/London" = Some tz /\
    ((NoMajority 3 (observed (yields (raceWithTimeout twoLondons 800))) /\
      Some (geoOf "Leeds") =
        firstSeenGeo tz (observed (yields (raceWithTimeout twoLondons 800))))
     \/
     (exists t r,
        last (consumed twoLondons 800) = Some (t, Some r) /\ timezone r = tz /\
        majorityOf 3 <= votes tz (observed (consumed twoLondons 800)) /\
        Some (geoOf "Leeds") = Some (geo r))).
Proof.
  apply (geo_of_result twoLondons 800
           {| res_timezone := Some "Europe/London";
              res_geo := Some (geoOf "Leeds");
              confidence := 2 # 3;
              responseTime := 20;
              sources := 2 |}).
  reflexivity.
Defined.

(* ===================================================================== *)
(** ** The total timeout *)
(* ===================================================================== *)



Example lateParis_result :
  consensusOver lateParis 800 =
    Returns {| res_timezone := Some "Europe/London";
               res_geo := Some (geoOf "London");
               confidence := 1 # 3;
               responseTime := 800;
               sources := 1 |}.
Proof. reflexivity. Qed.

(* ===================================================================== *)
(** ** getTimezone *)
(* ===================================================================== *)

Section GetTimezone.

Variables CITY_TIMEZONE COUNTRY_TIMEZONE : gmap string string.
Variable COUNTRY_REGION_TIMEZONE : gmap string (gmap string string).

Lemma present_Some v tz : present v = Some tz -> v = Some tz /\ tz <> "".
Proof.
  unfold present. destruct v as [s|]; simpl; [|discriminate].
  destruct (String.eqb_spec s ""); simpl; [discriminate|].
  intros [= <-]. auto.
Qed.

Lemma truthy_present v : truthy v = true -> present v = v.
Proof. unfold present. now intros ->. Qed.

Lemma falsy_present v : truthy v = false -> present v = None.
Proof. unfold present. now intros ->. Qed.

(** In a table without empty values an entry is there as soon as the
    key is. *)
Lemma present_lookup (table : gmap string string) k :
  (forall k' v, table !! k' = Some v -> v <> "") ->
  present (table !! k) = table !! k.
Proof.
  intros Hwf. destruct (table !! k) as [v|] eqn:E; [|reflexivity].
  apply truthy_present. simpl. apply Hwf in E.
  destruct (String.eqb_spec v ""); [contradiction | reflexivity].
Qed.

Lemma plainKey_inherited k :
  plainKey (Some k) = true -> Utils.inherited k = Utils.JsUndefined.
Proof. unfold plainKey. now destruct (Utils.inherited k). Qed.

Lemma prop_plain (table : gmap string string) k :
  Utils.inherited k = Utils.JsUndefined ->
  (if Utils.truthyValue (Utils.prop table k) then Some (Utils.prop table k) else None)
  = Utils.JsString <$> present (table !! k).
Proof.
  intros Hk. unfold Utils.prop, present. destruct (table !! k) as [v|]; simpl.
  - now destruct (String.eqb v "").
  - now rewrite Hk.
Qed.

Lemma regionTimezone_entry member q :
  plainKey (Utils.country q) = true -> plainKey (Utils.countryRegion q) = true ->
  Utils.regionTimezone COUNTRY_REGION_TIMEZONE member q
  = Utils.JsString <$> regionEntry COUNTRY_REGION_TIMEZONE q.
Proof.
  intros Hc Hr. unfold Utils.regionTimezone, regionEntry.
  destruct (Utils.country q) as [c|]; [|reflexivity].
  destruct (Utils.countryRegion q) as [r|];
    [|now destruct (present (Some c))].
  unfold present at 1 2.
  destruct (truthy (Some c)); [|reflexivity].
  destruct (truthy (Some r)); [|reflexivity].
  cbn [andb]. unfold Utils.regionValue.
  destruct (COUNTRY_REGION_TIMEZONE !! c) as [regionMap|].
  - apply prop_plain. now apply plainKey_inherited.
  - now rewrite (plainKey_inherited c Hc).
Qed.

Lemma cityTimezone_entry q :
  plainKey (Utils.city q) = true ->
  Utils.cityTimezone CITY_TIMEZONE q = Utils.JsString <$> cityEntry CITY_TIMEZONE q.
Proof.
  intros Hc. unfold Utils.cityTimezone, cityEntry.
  destruct (Utils.city q) as [c|]; [|reflexivity].
  unfold present at 1. destruct (truthy (Some c)); [|reflexivity].
  cbn [andb]. apply prop_plain. now apply plainKey_inherited.
Qed.

Lemma countryTimezone_entry q :
  plainKey (Utils.country q) = true ->
  Utils.countryTimezone COUNTRY_TIMEZONE q
  = Utils.JsString <$> countryEntry COUNTRY_TIMEZONE q.
Proof.
  intros Hc. unfold Utils.countryTimezone, countryEntry.
  destruct (Utils.country q) as [c|]; [|reflexivity].
  unfold present at 1. destruct (truthy (Some c)); [|reflexivity].
  cbn [andb]. apply prop_plain. now apply plainKey_inherited.
Qed.

Lemma regionEntry_nonempty q tz :
  regionEntry COUNTRY_REGION_TIMEZONE q = Some tz -> tz <> "".
Proof.
  unfold regionEntry.
  destruct (present (Utils.country q)) as [c|]; [|discriminate].
  destruct (present (Utils.countryRegion q)) as [r|]; [|discriminate].
  destruct (COUNTRY_REGION_TIMEZONE !! c) as [regionMap|]; [|discriminate].
  intros H. now apply present_Some in H.
Qed.

Lemma cityEntry_nonempty q tz : cityEntry CITY_TIMEZONE q = Some tz -> tz <> "".
Proof.
  unfold cityEntry. destruct (present (Utils.city q)) as [c|]; [|discriminate].
  intros H. now apply present_Some in H.
Qed.

Lemma countryEntry_nonempty q tz : countryEntry COUNTRY_TIMEZONE q = Some tz -> tz <> "".
Proof.
  unfold countryEntry. destruct (present (Utils.country q)) as [c|]; [|discriminate].
  intros H. now apply present_Some in H.
Qed.

Lemma getTimezone_cfTimezone member q :
  Utils.getTimezone CITY_TIMEZONE COUNTRY_TIMEZONE COUNTRY_REGION_TIMEZONE member q =
  match present (Utils.cfTimezone q) with
  | Some tz => Utils.JsString tz
  | None => Utils.fromTables CITY_TIMEZONE COUNTRY_TIMEZONE COUNTRY_REGION_TIMEZONE member q
  end.
Proof.
  unfold Utils.getTimezone, present.
  destruct (Utils.cfTimezone q) as [tz|]; [|reflexivity].
  now destruct (truthy (Some tz)).
Qed.

(** On keys that name nothing inherited the function is the cascade of
    its comments. *)
Lemma getTimezone_plain member q :
  plainKey (Utils.city q) = true -> plainKey (Utils.country q) = true ->
  plainKey (Utils.countryRegion q) = true ->
  Utils.getTimezone CITY_TIMEZONE COUNTRY_TIMEZONE COUNTRY_REGION_TIMEZONE member q =
    Utils.JsString (cascade CITY_TIMEZONE COUNTRY_TIMEZONE COUNTRY_REGION_TIMEZONE q).
Proof.
  intros Hci Hco Hr. rewrite getTimezone_cfTimezone. unfold Utils.fromTables, cascade.
  rewrite (regionTimezone_entry member q Hco Hr), (cityTimezone_entry q Hci),
    (countryTimezone_entry q Hco).
  destruct (present (Utils.cfTimezone q)) as [tz|]; [reflexivity|].
  destruct (regionEntry COUNTRY_REGION_TIMEZONE q) as [tz|]; [reflexivity|].
  destruct (cityEntry CITY_TIMEZONE q) as [tz|]; [reflexivity|].
  now destruct (countryEntry COUNTRY_TIMEZONE q) as [tz|].
Qed.

(** The cascade ends on a non-empty string. *)
Lemma cascade_nonempty q :
  cascade CITY_TIMEZONE COUNTRY_TIMEZONE COUNTRY_REGION_TIMEZONE q <> "".
Proof.
  unfold cascade.
  destruct (present (Utils.cfTimezone q)) as [tz|] eqn:Ecf.
  { now apply present_Some in Ecf. }
  destruct (regionEntry COUNTRY_REGION_TIMEZONE q) as [tz|] eqn:Er.
  { now apply (regionEntry_nonempty q). }
  destruct (cityEntry CITY_TIMEZONE q) as [tz|] eqn:Eci.
  { now apply (cityEntry_nonempty q). }
  destruct (countryEntry COUNTRY_TIMEZONE q) as [tz|] eqn:Eco.
  { now apply (countryEntry_nonempty q). }
  discriminate.
Qed.

(** What the cascade returns is Cloudflare's timezone, an entry of a
    table under the keys of the query, or ["UTC"]. *)
Lemma cascade_range q tz :
  cascade CITY_TIMEZONE COUNTRY_TIMEZONE COUNTRY_REGION_TIMEZONE q = tz ->
  Utils.cfTimezone q = Some tz
  \/ (exists c r regionMap,
        Utils.country q = Some c /\ Utils.countryRegion q = Some r /\
        COUNTRY_REGION_TIMEZONE !! c = Some regionMap /\ regionMap !! r = Some tz)
  \/ (exists c, Utils.city q = Some c /\ CITY_TIMEZONE !! c = Some tz)
  \/ (exists c, Utils.country q = Some c /\ COUNTRY_TIMEZONE !! c = Some tz)
  \/ tz = "UTC".
Proof.
  unfold cascade.
  destruct (present (Utils.cfTimezone q)) as [tz1|] eqn:Ecf.
  { intros <-. left. now apply present_Some in Ecf. }
  destruct (regionEntry COUNTRY_REGION_TIMEZONE q) as [tz1|] eqn:Er.
  { intros <-. right; left. unfold regionEntry in Er.
    destruct (present (Utils.country q)) as [c|] eqn:Ec; [|discriminate].
    destruct (present (Utils.countryRegion q)) as [r|] eqn:Err; [|discriminate].
    destruct (COUNTRY_REGION_TIMEZONE !! c) as [regionMap|] eqn:Em; [|discriminate].
    apply present_Some in Ec as [Ec _]. apply present_Some in Err as [Err _].
    apply present_Some in Er as [Er _]. exists c, r, regionMap. auto. }
  destruct (cityEntry CITY_TIMEZONE q) as [tz1|] eqn:Eci.
  { intros <-. right; right; left. unfold cityEntry in Eci.
    destruct (present (Utils.city q)) as [c|] eqn:Ec; [|discriminate].
    apply present_Some in Ec as [Ec _]. apply present_Some in Eci as [Eci _].
    exists c. auto. }
  destruct (countryEntry COUNTRY_TIMEZONE q) as [tz1|] eqn:Eco.
  { intros <-. right; right; right; left. unfold countryEntry in Eco.
    destruct (present (Utils.country q)) as [c|] eqn:Ec; [|discriminate].
    apply present_Some in Ec as [Ec _]. apply present_Some in Eco as [Eco _].
    exists c. auto. }
  intros <-. right; right; right; right. reflexivity.
Qed.

(** Whatever the keys, the function returns no falsy value. *)
Lemma getTimezone_truthy member q :
  Utils.truthyValue
    (Utils.getTimezone CITY_TIMEZONE COUNTRY_TIMEZONE COUNTRY_REGION_TIMEZONE member q)
  = true.
Proof.
  assert (Htables : Utils.truthyValue
            (Utils.fromTables CITY_TIMEZONE COUNTRY_TIMEZONE COUNTRY_REGION_TIMEZONE member q)
          = true).
  { unfold Utils.fromTables, Utils.regionTimezone, Utils.cityTimezone,
      Utils.countryTimezone.
    destruct (Utils.country q) as [c|], (Utils.countryRegion q) as [r|],
      (Utils.city q) as [ci|];
      repeat match goal with
             | |- context [if ?b then _ else _] =>
                 let E := fresh "E" in
                 destruct b eqn:E;
                 repeat match goal with
                        | H : _ && _ = true |- _ => apply andb_prop in H as [? ?]
                        end
             end; try assumption; reflexivity. }
  unfold Utils.getTimezone.
  destruct (Utils.cfTimezone q) as [tz|]; [|exact Htables].
  destruct (truthy (Some tz)) eqn:E; [exact E | exact Htables].
Qed.

(** C10, the code at the failing input.  No city is called
    ["constructor"], so the claim's cascade ends on ["UTC"]; but
    [CITY_TIMEZONE["constructor"]] is the function [Object], which every
    object literal inherits, and [getTimezone] returns it: a value that
    is not undefined, and not a string either. *)
Theorem getTimezone_returns_inherited_constructor member :
  CITY_TIMEZONE !! "constructor" = None ->
  Utils.getTimezone CITY_TIMEZONE COUNTRY_TIMEZONE COUNTRY_REGION_TIMEZONE member
    constructorCity = Utils.JsObject "Object" /\
  cascade CITY_TIMEZONE COUNTRY_TIMEZONE COUNTRY_REGION_TIMEZONE constructorCity = "UTC".
Proof.
  intros Hnone. split.
  - unfold Utils.getTimezone, Utils.fromTables, Utils.cityTimezone, Utils.prop. simpl.
    rewrite Hnone. reflexivity.
  - unfold cascade, regionEntry, cityEntry, countryEntry. simpl. now rewrite Hnone.
Qed.

End GetTimezone.

Lemma getTimezone_returns_inherited_constructor_witness :
  Utils.getTimezone {[ "Tokyo" := "Asia/Tokyo" ]} {[ "JP" := "Asia/Tokyo" ]} ∅
    (fun _ _ => Utils.JsUndefined) constructorCity = Utils.JsObject "Object" /\
  cascade {[ "Tokyo" := "Asia/Tokyo" ]} {[ "JP" := "Asia/Tokyo" ]} ∅ constructorCity = "UTC".
Proof.
  apply (getTimezone_returns_inherited_constructor
           {[ "Tokyo" := "Asia/Tokyo" ]} {[ "JP" := "Asia/Tokyo" ]} ∅
           (fun _ _ => Utils.JsUndefined)).
  reflexivity.
Defined.

(** A query with only a city, in small tables. *)
Example getTimezone_city :
  Utils.getTimezone {[ "Tokyo" := "Asia/Tokyo" ]} {[ "JP" := "Asia/Tokyo"; "FR" := "Europe/Paris" ]}
    {[ "US" := {[ "California" := "America/Los_Angeles" ]} ]} (fun _ _ => Utils.JsUndefined)
    {| Utils.city := Some "Tokyo"; Utils.country := Some "FR";
       Utils.countryRegion := Some ""; Utils.cfTimezone := None |}
  = Utils.JsString "Asia/Tokyo".
Proof. reflexivity. Qed.

Example getTimezone_default :
  Utils.getTimezone ∅ ∅ ∅ (fun _ _ => Utils.JsUndefined)
    {| Utils.city := None; Utils.country := None;
       Utils.countryRegion := None; Utils.cfTimezone := Some "" |}
  = Utils.JsString "UTC".
Proof. reflexivity. Qed.

(** The name of the function [Object], found through a country and a
    region that are no entries of the table. *)
Example getTimezone_inherited_name :
  Utils.getTimezone ∅ ∅ ∅
    (fun object key =>
       if String.eqb object "Object" && String.eqb key "name"
       then Utils.JsString "Object" else Utils.JsUndefined)
    {| Utils.city := None; Utils.country := Some "constructor";
       Utils.countryRegion := Some "name"; Utils.cfTimezone := None |}
  = Utils.JsString "Object".
Proof. reflexivity. Qed.

(* ===================================================================== *)
(** ** Further properties: fetchFromService and the generator *)
(* ===================================================================== *)

(** X1. A fetch never rejects and settles no later than its timeout.  Its
    outcome is Observed exactly when the exchange ended before the
    timeout with a parsed, non-empty timezone; the result then carries
    that timezone, the parsed geo and the name of the service.  Every
    other course (network error, bad status, bad JSON, no timezone,
    abort) is Absent. *)
Theorem fetchFromService_outcome name net timeout :
  settled (fetchFromService name net timeout) =
    Fulfilled (outcomeOf (fetchFromService name net timeout)) /\
  settleTime (fetchFromService name net timeout) <= timeout /\
  forall r,
    outcomeOf (fetchFromService name net timeout) = Some r <->
    latency net < timeout /\
    exists tz g, exchange net = Parsed (Some tz) g /\ tz <> "" /\
                 r = {| timezone := tz; geo := g; service := name |}.
Proof.
  destruct (fetchFromService_settles name net timeout) as [Ht Hs].
  split; [exact Hs|]. split; [exact Ht|]. intros r.
  unfold fetchFromService, outcomeOf.
  destruct (Nat.leb_spec timeout (latency net)) as [Hge|Hlt]; simpl.
  - split; [discriminate | intros [H _]; lia].
  - unfold fetchBody. destruct (exchange net) as [m|st|m|[tz|] g]; simpl.
    1-3, 5: split; [discriminate | intros (_ & tz' & g' & E & _); discriminate].
    destruct (String.eqb_spec tz "") as [->|Hne]; simpl.
    + split; [discriminate|].
      intros (_ & tz' & g' & [= <- <-] & Hne & _). now contradiction Hne.
    + split.
      * intros [= <-]. split; [exact Hlt|]. now exists tz, g.
      * intros (_ & tz' & g' & [= <- <-] & _ & ->). reflexivity.
Qed.

Lemma deliver_from now ps : Forall (fun ev => now <= fst ev) (deliver now ps).
Proof.
  revert now. induction ps as [|p ps IH]; intros now; simpl; constructor.
  - simpl. lia.
  - eapply List.Forall_impl; [|apply IH]. simpl. intros ev Hev. lia.
Qed.

Lemma deliver_sorted now ps : StronglySorted le (map fst (deliver now ps)).
Proof.
  revert now. induction ps as [|p ps IH]; intros now; simpl; constructor.
  - apply IH.
  - rewrite List.Forall_map. apply deliver_from.
Qed.

Lemma raceFrom_doneAt_le T ps : forall now, doneAt (raceFrom now ps T) <= Nat.max now T.
Proof.
  induction ps as [|p ps IH]; intros now; simpl; [lia|].
  unfold raceTimeout.
  destruct (Nat.leb_spec (settleTime p) T) as [Hlt|Hge]; simpl.
  - destruct (settled p) as [v|msg]; simpl.
    + etransitivity; [apply IH|]. lia.
    + destruct (String.eqb msg "Total timeout"); simpl; [lia|].
      etransitivity; [apply IH|]. lia.
  - lia.
Qed.

Lemma raceFrom_doneAt_ge T ps : forall now, now <= doneAt (raceFrom now ps T).
Proof.
  induction ps as [|p ps IH]; intros now; simpl; [lia|].
  destruct (settled (raceTimeout p T)) as [v|msg]; simpl.
  - etransitivity; [|apply IH]. lia.
  - destruct (String.eqb msg "Total timeout"); simpl; [lia|].
    etransitivity; [|apply IH]. lia.
Qed.

Lemma raceFrom_before_done T ps : forall now,
  Forall (fun ev => fst ev <= doneAt (raceFrom now ps T)) (yields (raceFrom now ps T)).
Proof.
  induction ps as [|p ps IH]; intros now; simpl; [constructor|].
  destruct (settled (raceTimeout p T)) as [v|msg]; simpl.
  - constructor; [apply raceFrom_doneAt_ge | apply IH].
  - destruct (String.eqb msg "Total timeout"); simpl; [constructor|].
    constructor; [apply raceFrom_doneAt_ge | apply IH].
Qed.

(** X2. The generator hands over at most one outcome for each promise, at
    instants that never go back, and completes after the last of them
    and no later than the total timeout. *)
Theorem raceWithTimeout_shape ps T :
  length (yields (raceWithTimeout ps T)) <= length ps /\
  StronglySorted le (map fst (yields (raceWithTimeout ps T))) /\
  Forall (fun ev => fst ev <= doneAt (raceWithTimeout ps T))
         (yields (raceWithTimeout ps T)) /\
  doneAt (raceWithTimeout ps T) <= T.
Proof.
  split; [apply yields_length|]. split; [|split].
  - unfold raceWithTimeout. rewrite raceFrom_yields. apply deliver_sorted.
  - apply raceFrom_before_done.
  - etransitivity; [apply raceFrom_doneAt_le | lia].
Qed.

Lemma raceFrom_blocked T ps1 p ps2 ps2' :
  T < settleTime p ->
  forall now, raceFrom now (ps1 ++ p :: ps2) T = raceFrom now (ps1 ++ p :: ps2') T.
Proof.
  intros Hlate. induction ps1 as [|q ps1 IH]; intros now; simpl.
  - unfold raceTimeout.
    destruct (Nat.leb_spec (settleTime p) T); [lia | reflexivity].
  - destruct (settled (raceTimeout q T)) as [v|msg]; [now rewrite IH|].
    destruct (String.eqb msg "Total timeout"); [reflexivity | now rewrite IH].
Qed.

(** X3. A service that settles only after the total timeout hides every
    service registered after it: whatever those answer, and however
    early, the call ends in the same way. *)
Theorem services_behind_a_late_one_are_unheard ps1 p ps2 ps2' T :
  T < settleTime p ->
  length ps2 = length ps2' ->
  consensusOver (ps1 ++ p :: ps2) T = consensusOver (ps1 ++ p :: ps2') T.
Proof.
  intros Hlate Hlen. unfold consensusOver, raceWithTimeout.
  rewrite (raceFrom_blocked T ps1 p ps2 ps2' Hlate).
  rewrite !List.length_app. simpl. now rewrite Hlen.
Qed.

Lemma services_behind_a_late_one_are_unheard_witness :
  consensusOver ([silent 10] ++ silent 900 :: [answers 20 "Europe/London" "London" "ip-api.com"]) 800 =
  consensusOver ([silent 10] ++ silent 900 :: [silent 30]) 800.
Proof.
  apply (services_behind_a_late_one_are_unheard [silent 10] (silent 900)
           [answers 20 "Europe/London" "London" "ip-api.com"] [silent 30] 800).
  - simpl. lia.
  - reflexivity.
Defined.

(* ===================================================================== *)
(** ** Further properties: the result of a consensus call *)
(* ===================================================================== *)

Lemma votes_two tz tz' rs :
  tz <> tz' -> votes tz rs + votes tz' rs <= length rs.
Proof.
  intros Hne. unfold votes. induction rs as [|r rs IH]; simpl; [lia|].
  destruct (String.eqb_spec (timezone r) tz) as [E|E];
    destruct (String.eqb_spec (timezone r) tz') as [E'|E']; simpl; try lia.
  congruence.
Qed.

Lemma yields_observed_length ps T :
  length (observed (yields (raceWithTimeout ps T))) <= length ps.
Proof.
  etransitivity; [apply observed_length | apply yields_length].
Qed.

Lemma majority_twice n : n <= 2 * majorityOf n <= n + 1.
Proof.
  unfold majorityOf.
  pose proof (Nat.div_mod_eq (n + 1) 2).
  pose proof (Nat.mod_upper_bound (n + 1) 2). lia.
Qed.

Lemma Zpos_of_nat n : 0 < n -> Z.pos (Pos.of_nat n) = Z.of_nat n.
Proof.
  intros Hn. destruct n as [|n]; [lia|].
  rewrite <- Znat.positive_nat_Z. f_equal. apply Nat2Pos.id. discriminate.
Qed.

Lemma ratio_mono v m n : v <= m -> (ratio v n <= ratio m n)%Q.
Proof.
  intros Hle. unfold ratio, Qle. simpl.
  apply Z.mul_le_mono_nonneg_r; lia.
Qed.

Lemma ratio_lt v m n : v < m -> (ratio v n < ratio m n)%Q.
Proof.
  intros Hlt. unfold ratio, Qlt. simpl.
  apply Z.mul_lt_mono_pos_r; lia.
Qed.

Lemma ratio_below_half v n : 0 < n -> v < majorityOf n -> (ratio v n < 1 # 2)%Q.
Proof.
  intros Hn Hv. unfold ratio, Qlt. simpl.
  rewrite Z.mul_1_l, (Zpos_of_nat n Hn).
  pose proof (majority_twice n). lia.
Qed.

(** The two ways a result comes about, with the votes spelled out. *)
Lemma consensus_result_votes ps T res :
  consensusOver ps T = Returns res ->
  let evs := yields (raceWithTimeout ps T) in
  let n := length ps in
  exists t r,
    In (t, Some r) (consumed ps T) /\
    res_timezone res = Some (timezone r) /\
    res_geo res = Some (geo r) /\
    confidence res = ratio (votes (timezone r) (observed (consumed ps T))) n /\
    sources res = length (observed (consumed ps T)) /\
    0 < n /\
    ((votes (timezone r) (observed (consumed ps T)) = majorityOf n /\
      majorityOf n <= votes (timezone r) (observed evs) /\
      responseTime res = t)
     \/
     (NoMajority n (observed evs) /\ consumed ps T = evs /\
      responseTime res = doneAt (raceWithTimeout ps T) /\
      forall tz, votes tz (observed evs) <= votes (timezone r) (observed evs))).
Proof.
  intros Hres evs n. subst evs n.
  assert (Hn : 0 < length ps).
  { destruct ps; [discriminate Hres | simpl; lia]. }
  destruct (consensus_cases ps T)
    as [(pre & t & r & post & Hy & Hno & Hmaj & Hr)
       | [(Hno & l1 & r & l2 & Hrs & Hr & Hmax & _) | (_ & Hr)]].
  - pose proof (consumed_early ps T pre t r post Hy Hno Hmaj) as Hc.
    rewrite Hres in Hr. injection Hr as ->. exists t, r. simpl.
    assert (Hv : votes (timezone r) (observed (consumed ps T)) =
                 votes (timezone r) (observed pre) + 1).
    { rewrite Hc, observed_app, votes_app. simpl.
      now rewrite votes_one, String.eqb_refl. }
    split; [rewrite Hc; apply in_or_app; right; now left|].
    split; [reflexivity|]. split; [reflexivity|].
    split; [now rewrite Hv|].
    split; [rewrite Hc, observed_app, List.length_app; simpl; lia|].
    split; [exact Hn|]. left.
    pose proof (Hno (timezone r)) as Hlt.
    split; [lia|]. split; [|reflexivity].
    rewrite Hy, observed_app, votes_app. simpl.
    change (r :: observed post) with ([r] ++ observed post).
    rewrite votes_app, votes_one, String.eqb_refl. lia.
  - pose proof (consumed_all ps T Hno) as Hc.
    rewrite Hres in Hr. injection Hr as ->.
    assert (Hin : exists t, In (t, Some r) (yields (raceWithTimeout ps T))).
    { assert (Hr : In r (observed (yields (raceWithTimeout ps T))))
        by (rewrite Hrs; apply in_or_app; right; now left).
      clear - Hr. induction (yields (raceWithTimeout ps T)) as [|[t [r'|]] evs IH];
        simpl in Hr; [destruct Hr | | ].
      - destruct Hr as [->|Hr]; [exists t; now left|].
        destruct (IH Hr) as [t' Ht']. exists t'. now right.
      - destruct (IH Hr) as [t' Ht']. exists t'. now right. }
    destruct Hin as [t Hin]. exists t, r. simpl. rewrite Hc.
    split; [exact Hin|]. do 4 (split; [reflexivity|]). split; [exact Hn|].
    right. split; [exact Hno|]. split; [reflexivity|]. split; [reflexivity | exact Hmax].
  - rewrite Hres in Hr. discriminate.
Qed.

(** X5. The confidence never exceeds ceil(N/2)/N, the share at which the
    call returns at once: it is exactly that share when some identifier
    has a majority among the deliveries (3/5 for the five services, even
    if all five agree), and below it otherwise. *)
Theorem confidence_at_most_majority_share ps T res :
  consensusOver ps T = Returns res ->
  let evs := yields (raceWithTimeout ps T) in
  let n := length ps in
  (confidence res <= ratio (majorityOf n) n)%Q /\
  ((exists tz, majorityOf n <= votes tz (observed evs)) ->
     confidence res = ratio (majorityOf n) n) /\
  (NoMajority n (observed evs) -> (confidence res < ratio (majorityOf n) n)%Q).
Proof.
  intros Hres evs n. subst evs n.
  destruct (consensus_result_votes ps T res Hres)
    as (t & r & _ & _ & _ & Hconf & _ & Hn &
        [(Hv & Hfull & _) | (Hno & Hc & _ & _)]).
  - rewrite Hconf, Hv. split; [apply Qle_refl|]. split; [reflexivity|].
    intros Hno. specialize (Hno (timezone r)). lia.
  - rewrite Hconf, Hc.
    pose proof (Hno (timezone r)) as Hlt.
    split; [apply ratio_mono; lia|]. split; [|intros _; now apply ratio_lt].
    intros (tz & Htz). specialize (Hno tz). lia.
Qed.

Lemma confidence_at_most_majority_share_witness :
  let evs := yields (raceWithTimeout londonFirst 800) in
  (3 # 5 <= ratio (majorityOf 5) 5)%Q /\
  ((exists tz, majorityOf 5 <= votes tz (observed evs)) ->
     3 # 5 = ratio (majorityOf 5) 5) /\
  (NoMajority 5 (observed evs) -> (3 # 5 < ratio (majorityOf 5) 5)%Q).
Proof.
  apply (confidence_at_most_majority_share londonFirst 800
           {| res_timezone := Some "Europe/London";
              res_geo := Some (geoOf "Leeds");
              confidence := 3 # 5;
              responseTime := 150;
              sources := 3 |}).
  reflexivity.
Defined.

(** X6. The confidence is at least one half exactly when some identifier
    has a majority among the deliveries, that is, when the call returned
    on a majority; a best guess always has a confidence below one half. *)
Theorem confidence_half_iff_majority ps T res :
  consensusOver ps T = Returns res ->
  ((1 # 2 <= confidence res)%Q <->
   exists tz, majorityOf (length ps) <= votes tz (observed (yields (raceWithTimeout ps T)))).
Proof.
  intros Hres.
  destruct (consensus_result_votes ps T res Hres)
    as (t & r & _ & _ & _ & Hconf & _ & Hn &
        [(Hv & Hfull & _) | (Hno & Hc & _ & _)]).
  - split; [intros _; now exists (timezone r)|].
    intros _. rewrite Hconf, Hv. apply ratio_half; [exact Hn | lia].
  - split.
    + intros Hhalf. exfalso. rewrite Hconf, Hc in Hhalf.
      pose proof (ratio_below_half _ _ Hn (Hno (timezone r))) as Hlt.
      apply (Qlt_irrefl (1 # 2)). eapply Qle_lt_trans; eauto.
    + intros (tz & Htz). specialize (Hno tz). lia.
Qed.

Lemma confidence_half_iff_majority_witness :
  (1 # 2 <= 3 # 5)%Q <->
  exists tz, majorityOf 5 <= votes tz (observed (yields (raceWithTimeout londonFirst 800))).
Proof.
  apply (confidence_half_iff_majority londonFirst 800
           {| res_timezone := Some "Europe/London";
              res_geo := Some (geoOf "Leeds");
              confidence := 3 # 5;
              responseTime := 150;
              sources := 3 |}).
  reflexivity.
Defined.

Lemma votes_prefix tz evs1 evs2 :
  votes tz (observed evs1) <= votes tz (observed (evs1 ++ evs2)).
Proof. rewrite observed_app, votes_app. lia. Qed.

(** X7. Returning on a majority never changes the winner: among all the
    outcomes the generator delivers, those the loop did not consume
    included, no identifier has more votes than the returned one. *)
Theorem winner_has_most_votes ps T res :
  consensusOver ps T = Returns res ->
  exists tz,
    res_timezone res = Some tz /\
    forall tz', votes tz' (observed (yields (raceWithTimeout ps T)))
                <= votes tz (observed (yields (raceWithTimeout ps T))).
Proof.
  intros Hres.
  destruct (consensus_result_votes ps T res Hres)
    as (t & r & _ & Htz & _ & _ & _ & Hn &
        [(_ & Hfull & _) | (_ & _ & _ & Hmax)]).
  - exists (timezone r). split; [exact Htz|]. intros tz'.
    destruct (string_dec (timezone r) tz') as [<-|Hne]; [lia|].
    pose proof (votes_two _ _ (observed (yields (raceWithTimeout ps T))) Hne).
    pose proof (yields_observed_length ps T).
    pose proof (majority_twice (length ps)). lia.
  - exists (timezone r). split; [exact Htz | exact Hmax].
Qed.

Lemma winner_has_most_votes_witness :
  exists tz,
    Some "Europe/London" = Some tz /\
    forall tz', votes tz' (observed (yields (raceWithTimeout londonFirst 800)))
                <= votes tz (observed (yields (raceWithTimeout londonFirst 800))).
Proof.
  apply (winner_has_most_votes londonFirst 800
           {| res_timezone := Some "Europe/London";
              res_geo := Some (geoOf "Leeds");
              confidence := 3 # 5;
              responseTime := 150;
              sources := 3 |}).
  reflexivity.
Defined.

(** X8. The identifier and the geo of a result come from one and the same
    outcome, one that the loop consumed: a result never pairs the
    timezone of one service with the geo of a service that named
    another timezone, and its timezone is never null. *)
Theorem result_is_one_outcome ps T res :
  consensusOver ps T = Returns res ->
  exists t r,
    In (t, Some r) (consumed ps T) /\
    res_timezone res = Some (timezone r) /\
    res_geo res = Some (geo r).
Proof.
  intros Hres.
  destruct (consensus_result_votes ps T res Hres)
    as (t & r & Hin & Htz & Hgeo & _).
  now exists t, r.
Qed.

Lemma result_is_one_outcome_witness :
  exists t r,
    In (t, Some r) (consumed twoLondons 800) /\
    Some "Europe/London" = Some (timezone r) /\
    Some (geoOf "Leeds") = Some (geo r).
Proof.
  apply (result_is_one_outcome twoLondons 800
           {| res_timezone := Some "Europe/London";
              res_geo := Some (geoOf "Leeds");
              confidence := 2 # 3;
              responseTime := 20;
              sources := 2 |}).
  reflexivity.
Defined.

(** X9. [sources] is at least the number of votes for the returned
    identifier, hence at least 1, and at most the number of registered
    services. *)
Theorem sources_bounds ps T res :
  consensusOver ps T = Returns res ->
  exists tz,
    res_timezone res = Some tz /\
    1 <= votes tz (observed (consumed ps T)) <= sources res /\
    sources res <= length ps.
Proof.
  intros Hres.
  destruct (consensus_result_votes ps T res Hres)
    as (t & r & Hin & Htz & _ & _ & Hsrc & _ & _).
  exists (timezone r). split; [exact Htz|]. rewrite Hsrc.
  assert (Hr : In r (observed (consumed ps T))).
  { clear - Hin. induction (consumed ps T) as [|[t' [r'|]] evs IH]; simpl in *.
    - destruct Hin.
    - destruct Hin as [[= -> ->]|Hin]; [now left | right; auto].
    - destruct Hin as [[=]|Hin]; auto. }
  split; [split|].
  - apply votes_pos_in. eauto.
  - apply votes_le_length.
  - apply consumed_length.
Qed.

Lemma sources_bounds_witness :
  exists tz,
    Some "Europe/London" = Some tz /\
    1 <= votes tz (observed (consumed mostlySilent 800)) <= 2 /\
    2 <= 5.
Proof.
  apply (sources_bounds mostlySilent 800
           {| res_timezone := Some "Europe/London";
              res_geo := Some (geoOf "London");
              confidence := 1 # 5;
              responseTime := 50;
              sources := 2 |}).
  reflexivity.
Defined.

(** X10. With a service timeout below the total timeout, as with the
    defaults, the total timeout cuts nothing off: the loop is offered
    the outcome of each of the five services, and the call throws
    exactly when every one of them ends Absent. *)
Theorem consensus_on_services_fails_iff_all_absent network timeout T :
  timeout < T ->
  map snd (yields (raceWithTimeout (startAll network timeout) T)) =
    map (fun name => outcomeOf (fetchFromService name (network name) timeout))
        GEOIP_SERVICES /\
  (getTimezoneByConsensus network timeout T = Throws AllFailed <->
   forall name, In name GEOIP_SERVICES ->
     outcomeOf (fetchFromService name (network name) timeout) = None).
Proof.
  intros Hlt. split.
  - now apply startAll_all_delivered.
  - now apply getTimezoneByConsensus_fails_iff.
Qed.

Lemma consensus_on_services_fails_iff_all_absent_witness :
  map snd (yields (raceWithTimeout (startAll flakyNetwork 500) 800)) =
    map (fun name => outcomeOf (fetchFromService name (flakyNetwork name) 500))
        GEOIP_SERVICES /\
  (getTimezoneByConsensus flakyNetwork 500 800 = Throws AllFailed <->
   forall name, In name GEOIP_SERVICES ->
     outcomeOf (fetchFromService name (flakyNetwork name) 500) = None).
Proof.
  apply (consensus_on_services_fails_iff_all_absent flakyNetwork 500 800).
  apply Nat.ltb_lt. reflexivity.
Defined.

(* ===================================================================== *)
(** ** Further properties: first-success mode *)
(* ===================================================================== *)

Lemma promiseRace_min l q :
  promiseRace l = Some q -> forall x, In x l -> fst q <= fst x.
Proof.
  revert q. induction l as [|y l IH]; intros q; simpl; [discriminate|].
  destruct (promiseRace l) as [q'|] eqn:E.
  - destruct (Nat.ltb_spec (fst q') (fst y)) as [Hlt|Hge]; intros [= <-] x [<-|Hin].
    + lia.
    + now apply IH.
    + lia.
    + specialize (IH q' eq_refl x Hin). lia.
  - intros [= <-] x [<-|Hin]; [lia|].
    destruct l as [|z l']; [destruct Hin|]. simpl in E.
    destruct (promiseRace l') as [q0|]; [destruct (fst q0 <? fst z)|]; discriminate E.
Qed.

Lemma promiseRace_nonempty l : l <> [] -> exists q, promiseRace l = Some q.
Proof.
  destruct l as [|x l]; [congruence|]. intros _. simpl.
  destruct (promiseRace l) as [q|]; [|eauto].
  destruct (fst q <? fst x); eauto.
Qed.

Lemma firstOver_orFail p :
  match snd (orFail p) with
  | Fulfilled1 result =>
      Returns {| timezone := timezone result; geo := geo result; service := service result |}
  | Rejected1 message => Throws message
  end = decidedBy p.
Proof.
  unfold orFail, decidedBy. simpl.
  destruct (settled p) as [[[tz g svc]|]|msg]; reflexivity.
Qed.

Lemma firstOver_winner ps :
  ps <> [] ->
  exists p, In p ps /\
    (forall q, In q ps -> settleTime p <= settleTime q) /\
    firstOver ps = decidedBy p.
Proof.
  intros Hne.
  assert (Hne' : map orFail ps <> []) by (now destruct ps).
  destruct (promiseRace_nonempty _ Hne') as [w Hw].
  pose proof (promiseRace_In _ _ Hw) as Hin.
  apply in_map_iff in Hin as (p & Hp & Hin).
  exists p. split; [exact Hin|]. split.
  - intros q Hq.
    pose proof (promiseRace_min _ _ Hw (orFail q) (in_map orFail ps q Hq)) as Hle.
    rewrite <- Hp in Hle. exact Hle.
  - unfold firstOver. rewrite Hw, <- Hp, <- firstOver_orFail.
    destruct (orFail p) as [t [r|m]]; reflexivity.
Qed.

(** X11. With at least one promise the call is decided by a promise that
    settles first, alone: it returns that promise's result if it has
    one, and throws otherwise, whatever the promises that settle later
    hold.  With no promise it never ends. *)
Theorem firstOver_decided_by_first_settled ps :
  (ps = [] -> firstOver ps = Pending) /\
  (ps <> [] ->
     exists p, In p ps /\
       (forall q, In q ps -> settleTime p <= settleTime q) /\
       firstOver ps = decidedBy p).
Proof.
  split; [intros ->; reflexivity | apply firstOver_winner].
Qed.

Lemma firstOver_decided_by_first_settled_witness :
  exists p, In p failsThenAnswers /\
    (forall q, In q failsThenAnswers -> settleTime p <= settleTime q) /\
    firstOver failsThenAnswers = decidedBy p.
Proof.
  destruct (firstOver_decided_by_first_settled failsThenAnswers) as [_ H].
  apply H. discriminate.
Defined.

(** X12. A service whose result comes strictly before every other
    service settles decides the call: its timezone, geo and name are
    returned, whatever the others answer afterwards. *)
Theorem firstOver_early_observed ps1 p r ps2 :
  settled p = Fulfilled (Some r) ->
  (forall q, In q (ps1 ++ ps2) -> settleTime p < settleTime q) ->
  firstOver (ps1 ++ p :: ps2) = Returns r.
Proof.
  intros Hp Hmin. unfold firstOver. rewrite map_app. simpl.
  rewrite promiseRace_strict_min.
  - unfold orFail. rewrite Hp. now destruct r.
  - intros y Hy. rewrite <- map_app in Hy.
    apply in_map_iff in Hy as (q & <- & Hq). simpl. now apply Hmin.
Qed.

Lemma firstOver_early_observed_witness :
  firstOver ([silent 300] ++ answers 10 "Europe/Paris" "Paris" "ipwho.is"
               :: [answers 20 "Europe/London" "London" "ip-api.com"])
  = Returns (answered "Europe/Paris" "Paris" "ipwho.is").
Proof.
  apply (firstOver_early_observed [silent 300]
           (answers 10 "Europe/Paris" "Paris" "ipwho.is")
           (answered "Europe/Paris" "Paris" "ipwho.is")
           [answers 20 "Europe/London" "London" "ip-api.com"]).
  - reflexivity.
  - intros q [<-|[<-|[]]]; simpl; lia.
Defined.

Lemma firstOver_early_absent_witness :
  firstOver ([] ++ silent 10 :: [answers 200 "Europe/London" "London" "ipwho.is"])
  = Throws "Service failed".
Proof.
  apply (firstOver_early_absent [] (silent 10)
           [answers 200 "Europe/London" "London" "ipwho.is"]).
  - reflexivity.
  - intros q [<-|[]]; simpl; lia.
Defined.

Lemma getTimezoneFirst_cases network timeout :
  getTimezoneFirst network timeout <> Pending /\
  (forall message, getTimezoneFirst network timeout = Throws message ->
     message = "Service failed") /\
  (forall r, getTimezoneFirst network timeout = Returns r ->
     exists name, In name GEOIP_SERVICES /\
       outcomeOf (fetchFromService name (network name) timeout) = Some r /\
       service r = name) /\
  ((forall name, In name GEOIP_SERVICES ->
      outcomeOf (fetchFromService name (network name) timeout) = None) ->
   getTimezoneFirst network timeout = Throws "Service failed").
Proof.
  unfold getTimezoneFirst.
  destruct (firstOver_winner (startAll network timeout)) as (p & Hin & _ & Hdec);
    [unfold startAll, GEOIP_SERVICES; discriminate|].
  unfold startAll in Hin. apply in_map_iff in Hin as (name & Hp & Hname).
  destruct (fetchFromService_settles name (network name) timeout) as [_ Hs].
  rewrite Hdec. unfold decidedBy. rewrite <- Hp, Hs.
  destruct (outcomeOf (fetchFromService name (network name) timeout)) as [r|] eqn:Eo.
  - split; [discriminate|]. split; [discriminate|]. split.
    + intros r' [= <-]. exists name. split; [exact Hname|]. split; [exact Eo|].
      unfold outcomeOf, fetchFromService in Eo.
      destruct (timeout <=? latency (network name)); simpl in Eo; [discriminate|].
      unfold fetchBody in Eo.
      destruct (exchange (network name)) as [| | |[tz|] g]; try discriminate.
      destruct (truthy (Some tz)); [|discriminate]. now injection Eo as <-.
    + intros Hall. rewrite (Hall name Hname) in Eo. discriminate.
  - split; [discriminate|]. split; [now intros m [= <-]|].
    split; [discriminate | reflexivity].
Qed.

(** X14. On the registered services the call always ends; its only error
    is ["Service failed"], which it throws in particular when every
    service ends Absent; a result it returns is the Observed outcome of
    one of the services and carries that service's name. *)
Theorem getTimezoneFirst_on_services network timeout :
  getTimezoneFirst network timeout <> Pending /\
  (forall message, getTimezoneFirst network timeout = Throws message ->
     message = "Service failed") /\
  (forall r, getTimezoneFirst network timeout = Returns r ->
     exists name, In name GEOIP_SERVICES /\
       outcomeOf (fetchFromService name (network name) timeout) = Some r /\
       service r = name) /\
  ((forall name, In name GEOIP_SERVICES ->
      outcomeOf (fetchFromService name (network name) timeout) = None) ->
   getTimezoneFirst network timeout = Throws "Service failed").
Proof. apply getTimezoneFirst_cases. Qed.


(* ===================================================================== *)
(** ** Further properties: flags and offsets *)
(* ===================================================================== *)

Lemma isUpper_bounds c :
  Utils.isUpper c = true -> (65 <= N_of_ascii c <= 90)%N.
Proof.
  unfold Utils.isUpper. intros H. apply andb_prop in H as [H1 H2].
  apply N.leb_le in H1, H2. lia.
Qed.

Lemma getFlag_cases_iff code flag :
  Utils.getFlag code = Some flag <->
  exists a b,
    code = Some (String a (String b "")) /\
    Utils.isUpper a = true /\ Utils.isUpper b = true /\
    flag = [(127397 + N_of_ascii a)%N; (127397 + N_of_ascii b)%N] /\
    Forall (fun cp => (127462 <= cp <= 127487)%N) flag.
Proof.
  unfold Utils.getFlag. split.
  - destruct code as [s|]; simpl; [|discriminate].
    destruct s as [|a [|b [|c s]]]; simpl; try discriminate.
    destruct (Utils.isUpper a) eqn:Ea; simpl; [|discriminate].
    destruct (Utils.isUpper b) eqn:Eb; simpl; [|discriminate].
    pose proof (isUpper_bounds a Ea) as Ha. pose proof (isUpper_bounds b Eb) as Hb.
    unfold Utils.fromCodePoint, Utils.EMOJI_FLAG_UNICODE_STARTING_POSITION. simpl.
    destruct (N.leb_spec (127397 + N_of_ascii a) 1114111); [|lia].
    destruct (N.leb_spec (127397 + N_of_ascii b) 1114111); [|lia]. simpl.
    intros [= <-]. exists a, b. repeat split; auto.
    repeat constructor; lia.
  - intros (a & b & -> & Ea & Eb & -> & _). simpl. rewrite Ea, Eb. simpl.
    pose proof (isUpper_bounds a Ea) as Ha. pose proof (isUpper_bounds b Eb) as Hb.
    unfold Utils.fromCodePoint, Utils.EMOJI_FLAG_UNICODE_STARTING_POSITION. simpl.
    destruct (N.leb_spec (127397 + N_of_ascii a) 1114111); [|lia].
    destruct (N.leb_spec (127397 + N_of_ascii b) 1114111); [|lia]. reflexivity.
Qed.

(** X15. [getFlag] returns a flag exactly for a code of two capital ASCII
    letters, and [undefined] for everything else (no code, the empty
    string, small letters, one or three letters).  The flag is the two
    regional indicator symbols of the letters: code points 127397 plus
    the letter, between 127462 and 127487. *)
Theorem getFlag_iff code flag :
  Utils.getFlag code = Some flag <->
  exists a b,
    code = Some (String a (String b "")) /\
    Utils.isUpper a = true /\ Utils.isUpper b = true /\
    flag = [(127397 + N_of_ascii a)%N; (127397 + N_of_ascii b)%N] /\
    Forall (fun cp => (127462 <= cp <= 127487)%N) flag.
Proof. apply getFlag_cases_iff. Qed.

Lemma getFlag_cases code flag :
  Utils.getFlag code = Some flag ->
  exists a b,
    code = Some (String a (String b "")) /\
    Utils.isUpper a = true /\ Utils.isUpper b = true /\
    flag = [(127397 + N_of_ascii a)%N; (127397 + N_of_ascii b)%N] /\
    Forall (fun cp => (127462 <= cp <= 127487)%N) flag.
Proof. apply getFlag_cases_iff. Qed.

(** X16. A flag determines its code: taking 127397 off its code points
    gives the letters back, so two codes with the same flag are the same
    code. *)
Theorem getFlag_decode code flag :
  Utils.getFlag code = Some flag -> code = Some (decodeFlag flag).
Proof.
  intros H. apply getFlag_cases in H as (a & b & -> & _ & _ & -> & _).
  unfold decodeFlag, Utils.EMOJI_FLAG_UNICODE_STARTING_POSITION. simpl.
  replace (127397 + N_of_ascii a - 127397)%N with (N_of_ascii a) by lia.
  replace (127397 + N_of_ascii b - 127397)%N with (N_of_ascii b) by lia.
  now rewrite !ascii_N_embedding.
Qed.

Lemma getFlag_decode_witness : Some "CN" = Some (decodeFlag [127464%N; 127475%N]).
Proof.
  apply (getFlag_decode (Some "CN") [127464%N; 127475%N]). reflexivity.
Defined.

Lemma allFrom_spec P fuel : forall z k,
  allFrom fuel z P = true ->
  (z <= k < z + Z.of_nat fuel)%Z -> P k = true.
Proof.
  induction fuel as [|fuel IH]; intros z k H Hk; [lia|].
  simpl in H. apply andb_prop in H as [Hz Hrest].
  destruct (Z.eq_dec k z) as [->|Hne]; [exact Hz|].
  apply (IH (z + 1)%Z); [exact Hrest | lia].
Qed.

(** The formatted offset depends on the minutes only. *)
Lemma getTimezoneOffset_of_minutes intl :
  Utils.getTimezoneOffset intl =
  Utils.getTimezoneOffset (Utils.IntlParts None (Utils.getTimezoneOffsetMinutes intl)).
Proof. reflexivity. Qed.

Lemma offset_shape_checked :
  allFrom (Z.to_nat 11999) (-5999)
    (fun m => String.eqb (Utils.getTimezoneOffset (Utils.IntlParts None m)) (signedHHMM m))
  = true.
Proof. vm_compute. reflexivity. Qed.

(** X17. For every timezone whose offset is less than a hundred hours (all
    real ones), [getTimezoneOffset] is the text [±HH:MM] of the minutes
    that [getTimezoneOffsetMinutes] returns: six characters, the sign
    [+] for zero and above, hours and minutes on two digits each. *)
Theorem getTimezoneOffset_shape intl :
  (-6000 < Utils.getTimezoneOffsetMinutes intl < 6000)%Z ->
  Utils.getTimezoneOffset intl = signedHHMM (Utils.getTimezoneOffsetMinutes intl) /\
  String.length (Utils.getTimezoneOffset intl) = 6.
Proof.
  intros Hm. rewrite getTimezoneOffset_of_minutes.
  pose proof (allFrom_spec _ _ _ (Utils.getTimezoneOffsetMinutes intl)
                offset_shape_checked) as H.
  apply String.eqb_eq in H; [|rewrite Z2Nat.id; lia].
  rewrite H. split; reflexivity.
Qed.

Lemma getTimezoneOffset_shape_witness :
  Utils.getTimezoneOffset (Utils.IntlParts (Some "GMT-05:30") 0) = signedHHMM (-330) /\
  String.length (Utils.getTimezoneOffset (Utils.IntlParts (Some "GMT-05:30") 0)) = 6.
Proof.
  apply (getTimezoneOffset_shape (Utils.IntlParts (Some "GMT-05:30") 0)).
  vm_compute. split; reflexivity.
Defined.

Lemma minutesOfText_sound value z :
  minutesOfText value = Some z ->
  forall fallback,
    Utils.getTimezoneOffsetMinutes (Utils.IntlParts (Some value) fallback) = z.
Proof.
  unfold minutesOfText, Utils.getTimezoneOffsetMinutes. intros H fallback.
  destruct (String.prefix "GMT" value).
  - destruct (String.eqb (Utils.removeFirst "GMT" value) "").
    + simpl in H. now injection H as <-.
    + destruct (Utils.matchOffset (Utils.removeFirst "GMT" value)) as [m|].
      * rewrite Z.eqb_refl in H. now injection H as <-.
      * simpl in H. discriminate.
  - simpl in H. discriminate.
Qed.

Lemma offset_round_trip_checked :
  allFrom (Z.to_nat 11999) (-5999)
    (fun m =>
       match minutesOfText (String.append "GMT" (Utils.getTimezoneOffset (Utils.IntlParts None m))) with
       | Some z => (z =? m)%Z
       | None => false
       end)
  = true.
Proof. vm_compute. reflexivity. Qed.

(** X18. The two functions agree: reading the minutes from the text [GMT]
    followed by a formatted offset gives back the minutes that were
    formatted, without recourse to the fallback computation, for every
    offset of less than a hundred hours. *)
Theorem offset_round_trip m fallback :
  (-6000 < m < 6000)%Z ->
  Utils.getTimezoneOffsetMinutes
    (Utils.IntlParts (Some (String.append "GMT" (Utils.getTimezoneOffset (Utils.IntlParts None m))))
                     fallback) = m.
Proof.
  intros Hm.
  pose proof (allFrom_spec _ _ _ m offset_round_trip_checked) as H.
  simpl in H.
  destruct (minutesOfText (String.append "GMT" (Utils.getTimezoneOffset (Utils.IntlParts None m))))
    as [z|] eqn:E.
  - rewrite (minutesOfText_sound _ _ E). apply Z.eqb_eq. apply H.
    rewrite Z2Nat.id; lia.
  - assert (false = true) by (apply H; rewrite Z2Nat.id; lia). discriminate.
Qed.

Lemma offset_round_trip_witness :
  Utils.getTimezoneOffsetMinutes
    (Utils.IntlParts (Some (String.append "GMT" (Utils.getTimezoneOffset (Utils.IntlParts None 345)))) 7)
  = 345%Z.
Proof. apply (offset_round_trip 345 7). lia. Defined.

Lemma offset_short_form_checked :
  allFrom 100 0
    (fun h =>
       match minutesOfText (String.append "GMT+" (Utils.toString h)),
             minutesOfText (String.append "GMT-" (Utils.toString h)) with
       | Some plus, Some minus => (plus =? 60 * h)%Z && (minus =? - (60 * h))%Z
       | _, _ => false
       end)
  = true.
Proof. vm_compute. reflexivity. Qed.

(** X19. The short texts the source names, [GMT+8] or [GMT-5], are read
    as whole hours: [GMT+h] gives 60 h minutes and [GMT-h] gives -60 h,
    for every h below 100, without recourse to the fallback. *)
Theorem offset_short_form h fallback :
  (0 <= h < 100)%Z ->
  Utils.getTimezoneOffsetMinutes
    (Utils.IntlParts (Some (String.append "GMT+" (Utils.toString h))) fallback)
    = (60 * h)%Z /\
  Utils.getTimezoneOffsetMinutes
    (Utils.IntlParts (Some (String.append "GMT-" (Utils.toString h))) fallback)
    = (- (60 * h))%Z.
Proof.
  intros Hh.
  pose proof (allFrom_spec _ _ _ h offset_short_form_checked) as H. simpl in H.
  destruct (minutesOfText (String.append "GMT+" (Utils.toString h))) as [plus|] eqn:Ep;
    [|assert (false = true) by (apply H; lia); discriminate].
  destruct (minutesOfText (String.append "GMT-" (Utils.toString h))) as [minus|] eqn:Em;
    [|assert (false = true) by (apply H; lia); discriminate].
  assert (Hb : (plus =? 60 * h)%Z && (minus =? - (60 * h))%Z = true) by (apply H; lia).
  apply andb_prop in Hb as [Hp Hm]. apply Z.eqb_eq in Hp, Hm.
  rewrite (minutesOfText_sound _ _ Ep), (minutesOfText_sound _ _ Em). auto.
Qed.

Lemma offset_short_form_witness :
  Utils.getTimezoneOffsetMinutes (Utils.IntlParts (Some "GMT+8") 7) = 480%Z /\
  Utils.getTimezoneOffsetMinutes (Utils.IntlParts (Some "GMT-8") 7) = (-480)%Z.
Proof. apply (offset_short_form 8 7). lia. Defined.

(* ===================================================================== *)
(** ** Further properties: getTimezone and the [/timezone] route *)
(* ===================================================================== *)

Section RouteFacts.

Variables CITY_TIMEZONE COUNTRY_TIMEZONE : gmap string string.
Variable COUNTRY_REGION_TIMEZONE : gmap string (gmap string string).
Variable member : string -> string -> Utils.JsValue.

(** X20. On a query whose city, country and region name nothing that an
    object inherits, [getTimezone] invents nothing: it returns a string,
    which is Cloudflare's timezone, or the entry of the region table of
    the query's country under the query's region, or the entry of the
    city table under the query's city, or the entry of the country table
    under the query's country, or ["UTC"]. *)
Theorem getTimezone_range q :
  plainKey (Utils.city q) = true -> plainKey (Utils.country q) = true ->
  plainKey (Utils.countryRegion q) = true ->
  exists tz,
    Utils.getTimezone CITY_TIMEZONE COUNTRY_TIMEZONE COUNTRY_REGION_TIMEZONE member q
    = Utils.JsString tz /\
    (Utils.cfTimezone q = Some tz
     \/ (exists c r regionMap,
           Utils.country q = Some c /\ Utils.countryRegion q = Some r /\
           COUNTRY_REGION_TIMEZONE !! c = Some regionMap /\ regionMap !! r = Some tz)
     \/ (exists c, Utils.city q = Some c /\ CITY_TIMEZONE !! c = Some tz)
     \/ (exists c, Utils.country q = Some c /\ COUNTRY_TIMEZONE !! c = Some tz)
     \/ tz = "UTC").
Proof.
  intros Hci Hco Hr.
  exists (cascade CITY_TIMEZONE COUNTRY_TIMEZONE COUNTRY_REGION_TIMEZONE q). split.
  - now apply getTimezone_plain.
  - now apply cascade_range.
Qed.

(** X24. On a query whose city, country and region name nothing that an
    object inherits, [getTimezone] is the cascade of its comments:
    Cloudflare's timezone when truthy; otherwise the entry of the region
    table when country and region are truthy and the entry exists;
    otherwise the entry of the city table; otherwise the entry of the
    country table; otherwise ["UTC"]; and that is a non-empty string. *)
Theorem getTimezone_cascade_on_plain_keys q :
  plainKey (Utils.city q) = true -> plainKey (Utils.country q) = true ->
  plainKey (Utils.countryRegion q) = true ->
  Utils.getTimezone CITY_TIMEZONE COUNTRY_TIMEZONE COUNTRY_REGION_TIMEZONE member q =
    Utils.JsString (cascade CITY_TIMEZONE COUNTRY_TIMEZONE COUNTRY_REGION_TIMEZONE q)
  /\ cascade CITY_TIMEZONE COUNTRY_TIMEZONE COUNTRY_REGION_TIMEZONE q <> "".
Proof.
  intros Hci Hco Hr. split.
  - now apply getTimezone_plain.
  - apply cascade_nonempty.
Qed.

(** X25. Whatever the query and the tables, [getTimezone] returns a
    truthy value: never undefined, never the empty string. *)
Theorem getTimezone_never_falsy q :
  Utils.truthyValue
    (Utils.getTimezone CITY_TIMEZONE COUNTRY_TIMEZONE COUNTRY_REGION_TIMEZONE member q)
  = true /\
  Utils.getTimezone CITY_TIMEZONE COUNTRY_TIMEZONE COUNTRY_REGION_TIMEZONE member q
  <> Utils.JsUndefined /\
  Utils.getTimezone CITY_TIMEZONE COUNTRY_TIMEZONE COUNTRY_REGION_TIMEZONE member q
  <> Utils.JsString "".
Proof.
  pose proof (getTimezone_truthy CITY_TIMEZONE COUNTRY_TIMEZONE COUNTRY_REGION_TIMEZONE
                member q) as H.
  split; [exact H|]. split; intros E; rewrite E in H; discriminate.
Qed.

End RouteFacts.

Lemma getTimezone_range_witness :
  exists tz,
    Utils.getTimezone {[ "Tokyo" := "Asia/Tokyo" ]}
      {[ "JP" := "Asia/Tokyo"; "FR" := "Europe/Paris" ]}
      {[ "US" := {[ "California" := "America/Los_Angeles" ]} ]}
      (fun _ _ => Utils.JsUndefined)
      {| Utils.city := Some "Tokyo"; Utils.country := Some "FR";
         Utils.countryRegion := Some ""; Utils.cfTimezone := None |}
    = Utils.JsString tz /\
    (None = Some tz
     \/ (exists c r regionMap,
           Some "FR" = Some c /\ Some "" = Some r /\
           ({[ "US" := {[ "California" := "America/Los_Angeles" ]} ]}
              : gmap string (gmap string string)) !! c = Some regionMap /\
           regionMap !! r = Some tz)
     \/ (exists c, Some "Tokyo" = Some c /\
           ({[ "Tokyo" := "Asia/Tokyo" ]} : gmap string string) !! c = Some tz)
     \/ (exists c, Some "FR" = Some c /\
           ({[ "JP" := "Asia/Tokyo"; "FR" := "Europe/Paris" ]} : gmap string string) !! c
             = Some tz)
     \/ tz = "UTC").
Proof.
  apply (getTimezone_range {[ "Tokyo" := "Asia/Tokyo" ]}
           {[ "JP" := "Asia/Tokyo"; "FR" := "Europe/Paris" ]}
           {[ "US" := {[ "California" := "America/Los_Angeles" ]} ]}
           (fun _ _ => Utils.JsUndefined)
           {| Utils.city := Some "Tokyo"; Utils.country := Some "FR";
              Utils.countryRegion := Some ""; Utils.cfTimezone := None |});
    reflexivity.
Defined.

Lemma getTimezone_cascade_on_plain_keys_witness :
  Utils.getTimezone ∅ {[ "JP" := "Asia/Tokyo"; "FR" := "Europe/Paris" ]}
    {[ "US" := {[ "California" := "America/Los_Angeles" ]} ]}
    (fun _ _ => Utils.JsUndefined)
    {| Utils.city := Some "Lyon"; Utils.country := Some "FR";
       Utils.countryRegion := Some "Rhone"; Utils.cfTimezone := Some "" |}
  = Utils.JsString
      (cascade ∅ {[ "JP" := "Asia/Tokyo"; "FR" := "Europe/Paris" ]}
         {[ "US" := {[ "California" := "America/Los_Angeles" ]} ]}
         {| Utils.city := Some "Lyon"; Utils.country := Some "FR";
            Utils.countryRegion := Some "Rhone"; Utils.cfTimezone := Some "" |})
  /\ cascade ∅ {[ "JP" := "Asia/Tokyo"; "FR" := "Europe/Paris" ]}
       {[ "US" := {[ "California" := "America/Los_Angeles" ]} ]}
       {| Utils.city := Some "Lyon"; Utils.country := Some "FR";
          Utils.countryRegion := Some "Rhone"; Utils.cfTimezone := Some "" |} <> "".
Proof.
  apply (getTimezone_cascade_on_plain_keys ∅
           {[ "JP" := "Asia/Tokyo"; "FR" := "Europe/Paris" ]}
           {[ "US" := {[ "California" := "America/Los_Angeles" ]} ]}
           (fun _ _ => Utils.JsUndefined)
           {| Utils.city := Some "Lyon"; Utils.country := Some "FR";
              Utils.countryRegion := Some "Rhone"; Utils.cfTimezone := Some "" |});
    reflexivity.
Defined.

Section RouteProperties.

Variables CITY_TIMEZONE COUNTRY_TIMEZONE : gmap string string.
Variable COUNTRY_REGION_TIMEZONE : gmap string (gmap string string).
Variable member : string -> string -> Utils.JsValue.
Variable network : option string -> string -> Fetch.

Lemma mode_first mode :
  Index.orElse mode (Some "consensus") = Some "first" <-> mode = Some "first".
Proof.
  unfold Index.orElse. destruct mode as [m|]; simpl.
  - destruct (String.eqb_spec m "") as [->|_]; simpl; [|tauto].
    split; discriminate.
  - split; discriminate.
Qed.

Lemma default_timeouts : Index.DEFAULT_TIMEOUT < Index.DEFAULT_TOTAL_TIMEOUT.
Proof. apply Nat.ltb_lt. vm_compute. reflexivity. Qed.

(** X21. A request without [?ip=], with an empty one, or with the
    caller's own address is answered from Cloudflare's data alone: no
    service is asked (the answer is the same for every network), the
    timezone is what [getTimezone] returns on Cloudflare's fields and
    headers, a truthy value, and a non-empty string when city, country
    and region name nothing that an object inherits; the confidence is 1
    and the sources are ["cloudflare"]; such a request never fails. *)
Theorem own_address_uses_cloudflare request :
  truthy (Index.searchParams request "ip") = false \/
  Index.searchParams request "ip" = Index.callerIp request ->
  exists answer,
    (forall network',
       Index.timezoneRoute CITY_TIMEZONE COUNTRY_TIMEZONE COUNTRY_REGION_TIMEZONE
         member network' request = Index.Answered answer) /\
    Index.targetIp answer = Index.callerIp request /\
    Index.timezone answer =
      Utils.getTimezone CITY_TIMEZONE COUNTRY_TIMEZONE COUNTRY_REGION_TIMEZONE member
        (cloudflareQuery request) /\
    Utils.truthyValue (Index.timezone answer) = true /\
    (plainKey (Utils.city (cloudflareQuery request)) = true ->
     plainKey (Utils.country (cloudflareQuery request)) = true ->
     plainKey (Utils.countryRegion (cloudflareQuery request)) = true ->
     exists tz, Index.timezone answer = Utils.JsString tz /\ tz <> "") /\
    Index.confidence answer = 1%Q /\
    Index.sources answer = Index.SourcesText "cloudflare".
Proof.
  intros Hown.
  exists (Index.fromCloudflare CITY_TIMEZONE COUNTRY_TIMEZONE
            COUNTRY_REGION_TIMEZONE member request (Index.callerIp request)).
  split; [|split; [reflexivity|]; split; [reflexivity|]; split; [|split]].
  - intros network'. unfold Index.timezoneRoute.
    assert (Ht : Index.orElse (Index.searchParams request "ip") (Index.callerIp request)
                 = Index.callerIp request).
    { unfold Index.orElse. destruct Hown as [Hf|He]; [now rewrite Hf|].
      rewrite He. now destruct (truthy (Index.callerIp request)). }
    rewrite Ht.
    destruct Hown as [Hf|He].
    + now rewrite Hf.
    + rewrite (bool_decide_eq_true_2 _ He). now rewrite orb_true_r.
  - apply getTimezone_truthy.
  - intros Hci Hco Hr.
    exists (cascade CITY_TIMEZONE COUNTRY_TIMEZONE COUNTRY_REGION_TIMEZONE
              (cloudflareQuery request)).
    split; [|apply cascade_nonempty].
    now apply (getTimezone_plain CITY_TIMEZONE COUNTRY_TIMEZONE COUNTRY_REGION_TIMEZONE
                 member (cloudflareQuery request)).
  - split; reflexivity.
Qed.

Let route request :=
  Index.timezoneRoute CITY_TIMEZONE COUNTRY_TIMEZONE COUNTRY_REGION_TIMEZONE
    member network request.

Lemma route_remote request :
  truthy (Index.searchParams request "ip") = true ->
  Index.searchParams request "ip" <> Index.callerIp request ->
  route request =
    Index.fromServices network
      (Index.orElse (Index.searchParams request "mode") (Some "consensus"))
      (Index.searchParams request "ip").
Proof.
  intros Ht Hne. unfold route, Index.timezoneRoute.
  assert (Htarget : Index.orElse (Index.searchParams request "ip")
                      (Index.callerIp request) = Index.searchParams request "ip")
    by (unfold Index.orElse; now rewrite Ht).
  rewrite Htarget, Ht, (bool_decide_eq_false_2 _ Hne). reflexivity.
Qed.

(** A result of the consensus call on the five services. *)
Lemma consensus_on_services_result net timeout T res :
  getTimezoneByConsensus net timeout T = Returns res ->
  (0 < confidence res)%Q /\ (confidence res <= 3 # 5)%Q /\
  Qeq_bool (confidence res) 0 = false /\
  1 <= sources res <= 5 /\
  exists tz g, res_timezone res = Some tz /\ res_geo res = Some g.
Proof.
  unfold getTimezoneByConsensus. intros E.
  destruct (consensus_result_votes _ _ _ E)
    as (t & r & Hin & Htz & Hgeo & Hconf & Hsrc & Hn & Hcase).
  pose proof (consumed_length (startAll net timeout) T) as Hcl.
  pose proof (votes_le_length (timezone r)
                (observed (consumed (startAll net timeout) T))) as Hvl.
  assert (Hlen : length (startAll net timeout) = 5) by reflexivity.
  rewrite Hlen in Hconf, Hcase, Hcl.
  assert (Hr : In r (observed (consumed (startAll net timeout) T))).
  { clear - Hin.
    induction (consumed (startAll net timeout) T) as [|[t' [r'|]] evs IH]; simpl in *.
    - destruct Hin.
    - destruct Hin as [[= -> ->]|Hin]; [now left | right; auto].
    - destruct Hin as [[=]|Hin]; auto. }
  assert (Hv1 : 0 < votes (timezone r) (observed (consumed (startAll net timeout) T)))
    by (apply votes_pos_in; eauto).
  assert (Hv3 : votes (timezone r) (observed (consumed (startAll net timeout) T)) <= 3).
  { destruct Hcase as [(Hmaj & _) | (Hno & Hc & _)].
    - rewrite Hmaj. reflexivity.
    - specialize (Hno (timezone r)). rewrite <- Hc in Hno.
      change (majorityOf 5) with 3 in Hno. lia. }
  assert (Hpos : (0 < confidence res)%Q) by (rewrite Hconf; apply ratio_pos; exact Hv1).
  split; [exact Hpos|]. split; [rewrite Hconf; apply (ratio_mono _ 3 5); exact Hv3|]. split.
  { destruct (Qeq_bool (confidence res) 0) eqn:Eq; [|reflexivity].
    apply Qeq_bool_iff in Eq. rewrite Eq in Hpos. now apply Qlt_irrefl in Hpos. }
  split; [rewrite Hsrc; lia|]. now exists (timezone r), (geo r).
Qed.



Lemma getTimezoneByConsensus_only_error net timeout T message :
  getTimezoneByConsensus net timeout T = Throws message -> message = AllFailed.
Proof. unfold getTimezoneByConsensus. apply consensusOver_only_error. Qed.

Lemma getTimezoneByConsensus_not_pending net timeout T :
  getTimezoneByConsensus net timeout T <> Pending.
Proof. unfold getTimezoneByConsensus. apply consensusOver_not_pending. Qed.

(** X22. A request for another address, in any mode but [first] (none,
    [consensus], anything else), is settled by consensus with the
    default timeouts.  It always ends.  It fails, with status 500 and
    the one message of the consensus call, exactly when all five
    services end Absent.  Otherwise the answer is for the address asked,
    its confidence is the one computed (the default 1.0 never replaces
    it), positive and at most 3/5, and its sources are a number between
    1 and 5. *)
Theorem consensus_route request :
  truthy (Index.searchParams request "ip") = true ->
  Index.searchParams request "ip" <> Index.callerIp request ->
  Index.searchParams request "mode" <> Some "first" ->
  route request <> Index.Hangs /\
  (route request = Index.Failed AllFailed <->
   forall name, In name GEOIP_SERVICES ->
     outcomeOf (fetchFromService name (network (Index.searchParams request "ip") name)
                  Index.DEFAULT_TIMEOUT) = None) /\
  (forall message, route request = Index.Failed message -> message = AllFailed) /\
  (forall answer, route request = Index.Answered answer ->
     Index.targetIp answer = Index.searchParams request "ip" /\
     (0 < Index.confidence answer)%Q /\ (Index.confidence answer <= 3 # 5)%Q /\
     exists n tz g,
       Index.sources answer = Index.SourcesNumber n /\ 1 <= n <= 5 /\
       Index.timezone answer = Utils.JsString tz /\ Index.geo answer = Some g).
Proof.
  intros Ht Hne Hmode. rewrite (route_remote request Ht Hne).
  unfold Index.fromServices.
  rewrite bool_decide_eq_false_2 by (rewrite mode_first; exact Hmode).
  pose proof (getTimezoneByConsensus_fails_iff
                (network (Index.searchParams request "ip"))
                Index.DEFAULT_TIMEOUT Index.DEFAULT_TOTAL_TIMEOUT default_timeouts) as Hfail.
  pose proof (consensus_on_services_result
                (network (Index.searchParams request "ip"))
                Index.DEFAULT_TIMEOUT Index.DEFAULT_TOTAL_TIMEOUT) as Hres.
  pose proof (getTimezoneByConsensus_only_error
                (network (Index.searchParams request "ip"))
                Index.DEFAULT_TIMEOUT Index.DEFAULT_TOTAL_TIMEOUT) as Hmsg.
  pose proof (getTimezoneByConsensus_not_pending
                (network (Index.searchParams request "ip"))
                Index.DEFAULT_TIMEOUT Index.DEFAULT_TOTAL_TIMEOUT) as Hpend.
  generalize dependent
    (getTimezoneByConsensus (network (Index.searchParams request "ip"))
       Index.DEFAULT_TIMEOUT Index.DEFAULT_TOTAL_TIMEOUT).
  intros [res|msg|] Hfail Hres Hmsg Hpend.
  - split; [discriminate|]. split.
    { split; [discriminate|]. intros Hall. apply Hfail in Hall. discriminate. }
    split; [discriminate|]. intros answer [= <-].
    destruct (Hres res eq_refl) as (Hpos & Hle & Hq & Hs & tz & g & Htz & Hgeo).
    cbn [Index.targetIp Index.confidence Index.sources Index.timezone Index.geo].
    rewrite Hq.
    destruct (Nat.eqb_spec (sources res) 0) as [E0|E0]; [lia|].
    split; [reflexivity|]. split; [exact Hpos|]. split; [exact Hle|].
    exists (sources res), tz, g. rewrite Htz. auto.
  - rewrite (Hmsg msg eq_refl) in *. split; [discriminate|]. split.
    { split; [intros _; now apply Hfail | reflexivity]. }
    split; [now intros m [= <-] | discriminate].
  - now contradiction Hpend.
Qed.

(** X23. A request for another address in the mode [first] is settled by
    the first service to settle.  It always ends; its only failure is
    status 500 with ["Service failed"].  An answer is for the address
    asked, has confidence 1 whatever the other services would say, and
    names as its sources the service whose outcome it returns. *)
Theorem first_route request :
  truthy (Index.searchParams request "ip") = true ->
  Index.searchParams request "ip" <> Index.callerIp request ->
  Index.searchParams request "mode" = Some "first" ->
  route request <> Index.Hangs /\
  (forall message, route request = Index.Failed message -> message = "Service failed") /\
  (forall answer, route request = Index.Answered answer ->
     Index.targetIp answer = Index.searchParams request "ip" /\
     Index.confidence answer = 1%Q /\
     exists name r,
       In name GEOIP_SERVICES /\
       outcomeOf (fetchFromService name (network (Index.searchParams request "ip") name)
                    Index.DEFAULT_TIMEOUT) = Some r /\
       Index.sources answer = Index.SourcesText name /\
       Index.timezone answer = Utils.JsString (timezone r) /\
       Index.geo answer = Some (geo r)).
Proof.
  intros Ht Hne Hmode. rewrite (route_remote request Ht Hne).
  unfold Index.fromServices.
  rewrite bool_decide_eq_true_2 by (rewrite mode_first; exact Hmode).
  destruct (getTimezoneFirst_cases (network (Index.searchParams request "ip"))
              Index.DEFAULT_TIMEOUT) as (Hpend & Hthrow & Hret & _).
  destruct (getTimezoneFirst (network (Index.searchParams request "ip"))
              Index.DEFAULT_TIMEOUT) as [r|msg|].
  - split; [discriminate|]. split; [discriminate|].
    intros answer [= <-].
    cbn [Index.targetIp Index.confidence Index.sources Index.timezone Index.geo].
    split; [reflexivity|]. split; [reflexivity|].
    destruct (Hret r eq_refl) as (name & Hin & Ho & Hs).
    exists name, r. rewrite Hs. auto.
  - split; [discriminate|]. split; [|discriminate].
    intros m [= <-]. now apply Hthrow.
  - now contradiction Hpend.
Qed.

End RouteProperties.

Lemma own_address_uses_cloudflare_witness :
  exists answer,
    (forall network',
       Index.timezoneRoute ∅ {[ "JP" := "Asia/Tokyo" ]} ∅ (fun _ _ => Utils.JsUndefined)
         network' ownRequest
       = Index.Answered answer) /\
    Index.targetIp answer = Index.callerIp ownRequest /\
    Index.timezone answer =
      Utils.getTimezone ∅ {[ "JP" := "Asia/Tokyo" ]} ∅ (fun _ _ => Utils.JsUndefined)
        (cloudflareQuery ownRequest) /\
    Utils.truthyValue (Index.timezone answer) = true /\
    (plainKey (Utils.city (cloudflareQuery ownRequest)) = true ->
     plainKey (Utils.country (cloudflareQuery ownRequest)) = true ->
     plainKey (Utils.countryRegion (cloudflareQuery ownRequest)) = true ->
     exists tz, Index.timezone answer = Utils.JsString tz /\ tz <> "") /\
    Index.confidence answer = 1%Q /\
    Index.sources answer = Index.SourcesText "cloudflare".
Proof.
  apply (own_address_uses_cloudflare ∅ {[ "JP" := "Asia/Tokyo" ]} ∅
           (fun _ _ => Utils.JsUndefined) ownRequest).
  left. reflexivity.
Defined.

(** The caller whose city is named "constructor" is answered with the
    function [Object] for a timezone. *)
Example own_address_constructor_city :
  forall network,
    Index.timezoneRoute ∅ {[ "JP" := "Asia/Tokyo" ]} ∅ (fun _ _ => Utils.JsUndefined)
      network constructorRequest =
    Index.Answered
      {| Index.targetIp := Some "203.0.113.7";
         Index.timezone := Utils.JsObject "Object";
         Index.geo := Some {| country := Some "JP"; countryRegion := None;
                              city := Some "constructor";
                              latitude := None; longitude := None |};
         Index.confidence := 1;
         Index.sources := Index.SourcesText "cloudflare" |}.
Proof. intros network. reflexivity. Qed.

Lemma consensus_route_witness :
  let request := remoteRequest None in
  let route :=
    Index.timezoneRoute ∅ ∅ ∅ (fun _ _ => Utils.JsUndefined) (fun _ => flakyNetwork)
      request in
  route <> Index.Hangs /\
  (route = Index.Failed AllFailed <->
   forall name, In name GEOIP_SERVICES ->
     outcomeOf (fetchFromService name (flakyNetwork name) Index.DEFAULT_TIMEOUT) = None) /\
  (forall message, route = Index.Failed message -> message = AllFailed) /\
  (forall answer, route = Index.Answered answer ->
     Index.targetIp answer = Index.searchParams request "ip" /\
     (0 < Index.confidence answer)%Q /\ (Index.confidence answer <= 3 # 5)%Q /\
     exists n tz g,
       Index.sources answer = Index.SourcesNumber n /\ 1 <= n <= 5 /\
       Index.timezone answer = Utils.JsString tz /\ Index.geo answer = Some g).
Proof.
  apply (consensus_route ∅ ∅ ∅ (fun _ _ => Utils.JsUndefined) (fun _ => flakyNetwork)
           (remoteRequest None)).
  - reflexivity.
  - discriminate.
  - discriminate.
Defined.

Lemma first_route_witness :
  let request := remoteRequest (Some "first") in
  let route :=
    Index.timezoneRoute ∅ ∅ ∅ (fun _ _ => Utils.JsUndefined) (fun _ => flakyNetwork)
      request in
  route <> Index.Hangs /\
  (forall message, route = Index.Failed message -> message = "Service failed") /\
  (forall answer, route = Index.Answered answer ->
     Index.targetIp answer = Index.searchParams request "ip" /\
     Index.confidence answer = 1%Q /\
     exists name r,
       In name GEOIP_SERVICES /\
       outcomeOf (fetchFromService name (flakyNetwork name) Index.DEFAULT_TIMEOUT) = Some r /\
       Index.sources answer = Index.SourcesText name /\
       Index.timezone answer = Utils.JsString (timezone r) /\
       Index.geo answer = Some (geo r)).
Proof.
  apply (first_route ∅ ∅ ∅ (fun _ _ => Utils.JsUndefined) (fun _ => flakyNetwork)
           (remoteRequest (Some "first"))).
  - reflexivity.
  - discriminate.
  - reflexivity.
Defined.

(** The two modes on the same request and network: consensus answers,
    [first] fails on the service that fails first. *)
Example route_modes_differ :
  Index.timezoneRoute ∅ ∅ ∅ (fun _ _ => Utils.JsUndefined) (fun _ => flakyNetwork)
    (remoteRequest None) =
    Index.Answered {| Index.targetIp := Some "198.51.100.9";
                      Index.timezone := Utils.JsString "Europe/London";
                      Index.geo := Some (geoOf "London");
                      Index.confidence := 3 # 5;
                      Index.sources := Index.SourcesNumber 3 |} /\
  Index.timezoneRoute ∅ ∅ ∅ (fun _ _ => Utils.JsUndefined) (fun _ => flakyNetwork)
    (remoteRequest (Some "first")) =
    Index.Failed "Service failed".
Proof. split; reflexivity. Qed.
